(** * HVO.Enterprise: scripts/create-github-issues.py

    A shallow embedding of the issue-creation script: the story parser
    ([parse_markdown_file]), the body assembly ([generate_issue_body]),
    the label deriver ([get_labels]) and the driver ([main]).

    A Python [str] is a Rocq [string] holding the UTF-8 encoding of the text
    (the script reads its input with [encoding="utf-8"]); a [dict] is a
    [gmap] with string keys; a [set] is a [gset]. *)

From Stdlib Require Import ZArith Ascii String List Lia.
From stdpp Require Import base gmap strings list pretty sorting.

Local Open Scope Z_scope.

(** ** Python values and the errors of dynamic typing *)

(** The values stored in the metadata dictionaries ([Dict[str, any]]):
    integers and strings in the table, [None] for a missing key. *)
Inductive PyVal :=
  | PyNone
  | PyInt (z : Z)
  | PyStr (s : string).

(** A computation either returns or raises [TypeError]. *)
Inductive result (A : Type) :=
  | Ok (a : A)
  | TypeError.
Arguments Ok {A} a.
Arguments TypeError {A}.

Definition bind {A B} (m : result A) (f : A → result B) : result B :=
  match m with
  | Ok a => f a
  | TypeError => TypeError
  end.

Notation "x <- m ;; k" := (bind m (λ x, k))
  (at level 100, m at next level, right associativity).

(** [bool(v)] *)
Definition truthy (v : PyVal) : bool :=
  match v with
  | PyNone => false
  | PyInt z => negb (z =? 0)
  | PyStr s => negb (String.eqb s "")
  end.

(** [str(v)], as used by an f-string field [{v}] *)
Definition py_str (v : PyVal) : string :=
  match v with
  | PyNone => "None"
  | PyInt z => pretty z
  | PyStr s => s
  end.

(** [s.startswith(p)] *)
Fixpoint starts_with (p s : string) : bool :=
  match p with
  | EmptyString => true
  | String a p' =>
      match s with
      | EmptyString => false
      | String b s' => Ascii.eqb a b && starts_with p' s'
      end
  end.

(** [needle in hay] on two strings: [needle] occurs in [hay]. *)
Fixpoint contains (needle hay : string) : bool :=
  starts_with needle hay ||
  match hay with
  | EmptyString => false
  | String _ hay' => contains needle hay'
  end.

(** [needle in v] for a string literal [needle]; the right operand must be
    a string ([None] and integers are not iterable). *)
Definition py_in (needle : string) (v : PyVal) : result bool :=
  match v with
  | PyStr s => Ok (contains needle s)
  | _ => TypeError
  end.

(** [v <= n] for an integer literal [n] *)
Definition py_le (v : PyVal) (n : Z) : result bool :=
  match v with
  | PyInt z => Ok (z <=? n)
  | _ => TypeError
  end.

(** [d.get(k)] and [d.get(k, dflt)] *)
Definition dict_get (d : gmap string PyVal) (k : string) : PyVal :=
  default PyNone (d !! k).
Definition dict_get_or (d : gmap string PyVal) (k : string) (dflt : PyVal) : PyVal :=
  default dflt (d !! k).

(** ** Static tables *)

(** Completed stories that should be marked as complete *)
Definition COMPLETED_STORIES : gset string :=
  {[ "US-001"; "US-002"; "US-003"; "US-004"; "US-019" ]}.

(** One entry of the metadata table: [{"sprint": _, "sp": _, "category": _}] *)
Definition entry (sprint sp : Z) (category : string) : gmap string PyVal :=
  {[ "sprint" := PyInt sprint; "sp" := PyInt sp; "category" := PyStr category ]}.

Definition STORY_METADATA : gmap string (gmap string PyVal) :=
  list_to_map [
    ("US-001", entry 1 3 "Core Package");
    ("US-002", entry 1 5 "Core Package");
    ("US-003", entry 3 5 "Core Package");
    ("US-004", entry 2 8 "Core Package");
    ("US-005", entry 1 5 "Core Package");
    ("US-006", entry 2 8 "Core Package");
    ("US-007", entry 5 3 "Core Package");
    ("US-008", entry 5 5 "Core Package");
    ("US-009", entry 2 5 "Core Package");
    ("US-010", entry 3 5 "Core Package");
    ("US-011", entry 5 5 "Core Package");
    ("US-012", entry 3 8 "Core Package");
    ("US-013", entry 4 5 "Core Package");
    ("US-014", entry 6 8 "Core Package");
    ("US-015", entry 6 5 "Core Package");
    ("US-016", entry 4 5 "Core Package");
    ("US-017", entry 5 3 "Core Package");
    ("US-018", entry 4 5 "Core Package");
    ("US-019", entry 6 5 "Extension Package");
    ("US-020", entry 7 3 "Extension Package");
    ("US-021", entry 7 5 "Extension Package");
    ("US-022", entry 7 8 "Extension Package");
    ("US-023", entry 8 3 "Extension Package");
    ("US-024", entry 8 5 "Extension Package");
    ("US-025", entry 8 5 "Extension Package");
    ("US-026", entry 9 30 "Testing & Samples");
    ("US-027", entry 10 13 "Testing & Samples");
    ("US-028", entry 10 13 "Testing & Samples");
    ("US-029", entry 10 8 "Documentation");
    ("US-030", entry 10 3 "Documentation")
  ].

(** The shape of a metadata dictionary: each of the three fields is an
    integer, an integer and a string, or is missing. [meta_dict] builds the
    dictionary; the empty one is [meta_dict (Meta None None None)]. *)
Record StoryMeta := Meta {
  meta_sprint : option Z;
  meta_sp : option Z;
  meta_category : option string
}.

Definition set_field (k : string) (v : option PyVal) (d : gmap string PyVal)
  : gmap string PyVal :=
  match v with
  | Some x => <[k := x]> d
  | None => d
  end.

Definition meta_dict (m : StoryMeta) : gmap string PyVal :=
  set_field "sprint" (PyInt <$> meta_sprint m)
    (set_field "sp" (PyInt <$> meta_sp m)
      (set_field "category" (PyStr <$> meta_category m) ∅)).

(** ** The label deriver *)

(** [sprint and sprint <= n]: the comparison is evaluated only for a truthy
    [sprint]. *)
Definition sprint_at_most (sprint : PyVal) (n : Z) : result bool :=
  if truthy sprint then py_le sprint n else Ok false.

Definition get_labels (story_id : string) (metadata : gmap string PyVal)
  : result (list string) :=
  let labels := ["user-story"] in
  (* status label *)
  let labels :=
    if bool_decide (story_id ∈ COMPLETED_STORIES)
    then labels ++ ["status:complete"]
    else labels ++ ["status:not-started"] in
  (* story point label *)
  let sp := dict_get metadata "sp" in
  let labels := if truthy sp then labels ++ ["sp-" +:+ py_str sp] else labels in
  (* sprint label *)
  let sprint := dict_get metadata "sprint" in
  let labels :=
    if truthy sprint then labels ++ ["sprint-" +:+ py_str sprint] else labels in
  (* category label *)
  let category := dict_get_or metadata "category" (PyStr "") in
  labels <-
    (core <- py_in "Core Package" category ;;
     if core then Ok (labels ++ ["core-package"]) else
     ext <- py_in "Extension Package" category ;;
     if ext then Ok (labels ++ ["extension-package"]) else
     testing <- py_in "Testing" category ;;
     samples <- (if testing then Ok true else py_in "Samples" category) ;;
     if samples then Ok (labels ++ ["testing"]) else
     doc <- py_in "Documentation" category ;;
     if doc then Ok (labels ++ ["documentation"]) else
     Ok labels) ;;
  (* priority label, from the sprint *)
  p0 <- sprint_at_most sprint 2 ;;
  if p0 then Ok (labels ++ ["priority:p0"]) else
  p1 <- sprint_at_most sprint 4 ;;
  if p1 then Ok (labels ++ ["priority:p1"]) else
  p2 <- sprint_at_most sprint 8 ;;
  if p2 then Ok (labels ++ ["priority:p2"]) else
  Ok (labels ++ ["priority:p3"]).

(** ** Regular expressions

    The fragment of Python's [re] syntax used by the script, with the
    semantics of its backtracking matcher: alternatives are tried left to
    right, a greedy repetition tries the longest run first, a lazy one the
    shortest, and [re.search] returns the leftmost match. *)

(** ASCII escapes *)
Definition LF : ascii := "010"%char.
Definition NL : string := String LF "".

(** Character classes. White space and digits are the ASCII ones; a byte of
    a multi-byte character is in neither class. *)
Inductive cclass :=
  | CDigit      (* \d *)
  | CSpace      (* \s *)
  | CDot        (* .  : anything but a line feed *)
  | CAny.       (* .  under re.DOTALL *)

Definition is_digit (a : ascii) : bool :=
  let n := N_of_ascii a in ((48 <=? n) && (n <=? 57))%N.

(** [str.isspace] on one ASCII character: TAB, LF, VT, FF, CR, FS, GS, RS,
    US and the space. *)
Definition is_space (a : ascii) : bool :=
  let n := N_of_ascii a in
  (((9 <=? n) && (n <=? 13)) || ((28 <=? n) && (n <=? 31)) || (n =? 32))%N.

Definition in_class (c : cclass) (a : ascii) : bool :=
  match c with
  | CDigit => is_digit a
  | CSpace => is_space a
  | CDot => negb (Ascii.eqb a LF)
  | CAny => true
  end.

Inductive regex :=
  | Lit (s : string)              (* literal text *)
  | Star (c : cclass)             (* c*  *)
  | Plus (c : cclass)             (* c+  *)
  | StarLazy (c : cclass)         (* c*? *)
  | Group (n : nat) (r : regex)   (* the n-th capturing group *)
  | Seq (r1 r2 : regex)
  | Alt (r1 r2 : regex)           (* r1|r2 *)
  | Ahead (r : regex)             (* (?=r) *)
  | Bol                           (* ^ under re.MULTILINE *)
  | Eol                           (* $ under re.MULTILINE *)
  | EndZ.                         (* \Z *)

Infix "⋅" := Seq (at level 60, right associativity).

(** The text captured by each group, the most recent first. *)
Definition captures := list (nat * string).

Fixpoint group (n : nat) (caps : captures) : string :=
  match caps with
  | [] => ""
  | (m, s) :: caps' => if Nat.eqb n m then s else group n caps'
  end.

(** A position of the subject is its remaining text together with the
    character before it ([None] at the start). *)
Fixpoint strip_prefix (l : string) (prev : option ascii) (s : string)
  : option (option ascii * string) :=
  match l with
  | EmptyString => Some (prev, s)
  | String a l' =>
      match s with
      | EmptyString => None
      | String b s' => if Ascii.eqb a b then strip_prefix l' (Some b) s' else None
      end
  end.

(** The text between two positions, the second a suffix of the first. *)
Definition consumed (s s' : string) : string :=
  String.substring 0 (String.length s - String.length s') s.

Fixpoint star_greedy {R} (c : cclass) (prev : option ascii) (s : string)
    (k : option ascii → string → option R) : option R :=
  match s with
  | String a s' =>
      if in_class c a then
        match star_greedy c (Some a) s' k with
        | Some r => Some r
        | None => k prev s
        end
      else k prev s
  | EmptyString => k prev s
  end.

Fixpoint star_lazy {R} (c : cclass) (prev : option ascii) (s : string)
    (k : option ascii → string → option R) : option R :=
  match k prev s with
  | Some r => Some r
  | None =>
      match s with
      | String a s' => if in_class c a then star_lazy c (Some a) s' k else None
      | EmptyString => None
      end
  end.

Definition at_bol (prev : option ascii) : bool :=
  match prev with
  | None => true
  | Some a => Ascii.eqb a LF
  end.

Definition at_eol (s : string) : bool :=
  match s with
  | EmptyString => true
  | String a _ => Ascii.eqb a LF
  end.

(** [rmatch r prev s caps k]: match [r] at the position [(prev, s)] and
    hand the position after it to the continuation [k]; a failure of [k]
    makes the matcher backtrack. *)
Fixpoint rmatch (r : regex) (prev : option ascii) (s : string) (caps : captures)
    (k : option ascii → string → captures → option captures) : option captures :=
  match r with
  | Lit l =>
      match strip_prefix l prev s with
      | Some (prev', s') => k prev' s' caps
      | None => None
      end
  | Star c => star_greedy c prev s (λ p s', k p s' caps)
  | Plus c =>
      match s with
      | String a s' =>
          if in_class c a then star_greedy c (Some a) s' (λ p s'', k p s'' caps)
          else None
      | EmptyString => None
      end
  | StarLazy c => star_lazy c prev s (λ p s', k p s' caps)
  | Group n r' =>
      rmatch r' prev s caps (λ p s' caps', k p s' ((n, consumed s s') :: caps'))
  | Seq r1 r2 =>
      rmatch r1 prev s caps (λ p s' caps', rmatch r2 p s' caps' k)
  | Alt r1 r2 =>
      match rmatch r1 prev s caps k with
      | Some res => Some res
      | None => rmatch r2 prev s caps k
      end
  | Ahead r' =>
      match rmatch r' prev s caps (λ _ _ caps', Some caps') with
      | Some caps' => k prev s caps'
      | None => None
      end
  | Bol => if at_bol prev then k prev s caps else None
  | Eol => if at_eol s then k prev s caps else None
  | EndZ =>
      match s with
      | EmptyString => k prev s caps
      | String _ _ => None
      end
  end.

Definition match_at (r : regex) (prev : option ascii) (s : string)
  : option captures :=
  rmatch r prev s [] (λ _ _ caps, Some caps).

(** [re.search]: the first position, from the left, where [r] matches. *)
Fixpoint search_from (r : regex) (prev : option ascii) (s : string)
  : option captures :=
  match match_at r prev s with
  | Some caps => Some caps
  | None =>
      match s with
      | String a s' => search_from r (Some a) s'
      | EmptyString => None
      end
  end.

Definition re_search (r : regex) (s : string) : option captures :=
  search_from r None s.

(** [m.group(n) if m else dflt] *)
Definition group_or (n : nat) (m : option captures) (dflt : string) : string :=
  match m with
  | Some caps => group n caps
  | None => dflt
  end.

(** ** String methods *)

Fixpoint lstrip (s : string) : string :=
  match s with
  | String a s' => if is_space a then lstrip s' else s
  | EmptyString => EmptyString
  end.

Definition rstrip (s : string) : string :=
  String.rev (lstrip (String.rev s)).

(** [s.strip()] *)
Definition strip (s : string) : string := rstrip (lstrip s).

(** [sep.join(parts)] *)
Definition join (sep : string) (parts : list string) : string :=
  String.concat sep parts.

(** [s.split(sep)] for a one-character separator *)
Fixpoint split (sep : ascii) (s : string) : list string :=
  match s with
  | EmptyString => [""]
  | String a s' =>
      if Ascii.eqb a sep then "" :: split sep s'
      else
        match split sep s' with
        | piece :: pieces => String a piece :: pieces
        | [] => [String a ""]
        end
  end.

(** [len(s)]: the number of characters, that is of bytes that do not
    continue a multi-byte character. *)
Fixpoint py_len (s : string) : Z :=
  match s with
  | EmptyString => 0
  | String a s' =>
      (if (N.land (N_of_ascii a) 192 =? 128)%N then 0 else 1) + py_len s'
  end.

(** [s * n] *)
Fixpoint repeat_str (s : string) (n : nat) : string :=
  match n with
  | O => ""
  | S n' => s +:+ repeat_str s n'
  end.

(** ** The story parser *)

(** Paths, as [pathlib] sees them: an optional root and the components. *)
Record Path := MkPath {
  path_rooted : bool;
  path_parts : list string
}.

Global Instance Path_eq_dec : EqDecision Path.
Proof. solve_decision. Defined.

(** [str(p)] *)
Definition path_str (p : Path) : string :=
  match path_rooted p, path_parts p with
  | false, [] => "."
  | false, ps => join "/" ps
  | true, ps => "/" +:+ join "/" ps
  end.

(** [p.parent] *)
Definition parent (p : Path) : Path :=
  MkPath (path_rooted p) (removelast (path_parts p)).

(** [p / name] for a single relative component *)
Definition path_join (p : Path) (name : string) : Path :=
  MkPath (path_rooted p) (path_parts p ++ [name]).
Infix "//" := path_join (at level 40, left associativity).

(** [p.name] *)
Definition path_name (p : Path) : string := List.last (path_parts p) "".

(** [s.rfind(".")], as the number of characters before the last dot *)
Fixpoint rfind_dot (s : string) : option nat :=
  match s with
  | EmptyString => None
  | String a s' =>
      match rfind_dot s' with
      | Some i => Some (S i)
      | None => if Ascii.eqb a "." then Some O else None
      end
  end.

(** [p.stem]: the name without its last suffix; a leading or a trailing dot
    starts no suffix. *)
Definition path_stem (p : Path) : string :=
  let name := path_name p in
  match rfind_dot name with
  | Some i =>
      if ((0 <? i) && (i <? String.length name - 1))%nat
      then String.substring 0 i name
      else name
  | None => name
  end.

(** [r"^# (US-\d+): (.+)$"], used with [re.MULTILINE] *)
Definition title_re : regex :=
  Bol ⋅ Lit "# " ⋅ Group 1 (Lit "US-" ⋅ Plus CDigit) ⋅ Lit ": "
      ⋅ Group 2 (Plus CDot) ⋅ Eol.

(** [r"\*\*Status\*\*: (.+)"] and its three siblings *)
Definition status_re : regex := Lit "**Status**: " ⋅ Group 1 (Plus CDot).
Definition category_re : regex := Lit "**Category**: " ⋅ Group 1 (Plus CDot).
Definition effort_re : regex := Lit "**Effort**: " ⋅ Group 1 (Plus CDot).
Definition sprint_re : regex := Lit "**Sprint**: " ⋅ Group 1 (Plus CDot).

(** [\s*\n(.*?)(?=\n## |\Z)], the part that follows the heading in each
    section pattern; the patterns are used with [re.DOTALL]. *)
Definition section_rest : regex :=
  Star CSpace ⋅ Lit NL ⋅ Group 1 (StarLazy CAny)
              ⋅ Ahead (Alt (Lit (NL +:+ "## ")) EndZ).

Definition section_patterns : list (string * regex) := [
  ("description", Lit "## Description" ⋅ section_rest);
  ("acceptance_criteria", Lit "## Acceptance Criteria" ⋅ section_rest);
  ("technical_requirements", Lit "## Technical Requirements" ⋅ section_rest);
  ("testing_requirements", Lit "## Testing Requirements" ⋅ section_rest);
  ("performance_requirements", Lit "## Performance Requirements" ⋅ section_rest);
  ("dependencies", Lit "## Dependencies" ⋅ section_rest);
  ("definition_of_done", Lit "## Definition of Done" ⋅ section_rest);
  ("notes", Lit "## Notes" ⋅ section_rest);
  ("related_docs", Lit "## Related Documentation" ⋅ section_rest)
].

(** The cross mark U+274C, in UTF-8 *)
Definition CROSS : string := String "226" (String "157" (String "140" "")).
(** The check mark U+2705, in UTF-8 *)
Definition CHECK : string := String "226" (String "156" (String "133" "")).

(** One turn of the loop over [section_patterns] *)
Definition extract_section (content : string) (sections : gmap string string)
    (entry : string * regex) : gmap string string :=
  let '(section_name, pattern) := entry in
  match re_search pattern content with
  | Some caps => <[section_name := strip (group 1 caps)]> sections
  | None => <[section_name := ""]> sections
  end.

(** The body of [parse_markdown_file] after the file has been read:
    [content] is the text of the file at [filepath]. *)
Definition parse_content (filepath : Path) (content : string)
  : gmap string string :=
  (* story ID from the file name *)
  let story_id := take 2 (split "-"%char (path_stem filepath)) in
  let story_id := join "-" story_id in
  (* title from the first heading line *)
  let title_match := re_search title_re content in
  let title := group_or 2 title_match "Unknown Title" in
  let sections : gmap string string := ∅ in
  (* header metadata *)
  let status_match := re_search status_re content in
  let category_match := re_search category_re content in
  let effort_match := re_search effort_re content in
  let sprint_match := re_search sprint_re content in
  let sections := <["story_id" := story_id]> sections in
  let sections := <["title" := title]> sections in
  let sections :=
    <["status" := group_or 1 status_match (CROSS +:+ " Not Started")]> sections in
  let sections := <["category" := group_or 1 category_match "Unknown"]> sections in
  let sections := <["effort" := group_or 1 effort_match "Unknown"]> sections in
  let sections := <["sprint" := group_or 1 sprint_match "Unknown"]> sections in
  (* main sections *)
  foldl (extract_section content) sections section_patterns.

(** ** The body assembly *)

(** [if sections.get(key): body_parts.append(f"## {heading}\n\n{sections[key]}")] *)
Definition add_block (sections : gmap string string) (key heading : string)
    (body_parts : list string) : list string :=
  match sections !! key with
  | Some text =>
      if negb (String.eqb text "")
      then body_parts ++ ["## " +:+ heading +:+ NL +:+ NL +:+ text]
      else body_parts
  | None => body_parts
  end.

Definition body_parts (sections : gmap string string) : list string :=
  let parts := [] in
  let parts := add_block sections "description" "Description" parts in
  let parts := add_block sections "acceptance_criteria" "Acceptance Criteria" parts in
  let parts := add_block sections "technical_requirements" "Technical Requirements" parts in
  let parts := add_block sections "testing_requirements" "Testing Requirements" parts in
  let parts := add_block sections "performance_requirements" "Performance Requirements" parts in
  let parts := add_block sections "dependencies" "Dependencies" parts in
  let parts := add_block sections "definition_of_done" "Definition of Done" parts in
  let parts := add_block sections "notes" "Notes" parts in
  let parts := add_block sections "related_docs" "Related Documentation" parts in
  parts.

Definition generate_issue_body (sections : gmap string string) : string :=
  join (NL +:+ NL) (body_parts sections).

(** ** The driver

    The script's view of the outside: where it is installed, which
    directories and files exist (files with their decoded text), and its
    command line. *)
Record World := MkWorld {
  script_file : Path;               (* Path(__file__) *)
  directories : list Path;
  files : list (Path * string);
  argv : list string
}.

(** What a run does to the outside, in order. *)
Inductive event :=
  | EPrint (text : string)          (* print(text) *)
  | EExists (p : Path)              (* p.exists() *)
  | EGlob (dir : Path)              (* dir.glob("US-*.md") *)
  | ERead (file : Path).            (* file.read_text(encoding="utf-8") *)

(** How a computation ends: with a value, with [sys.exit(code)], or with an
    uncaught exception. *)
Inductive outcome (A : Type) :=
  | Done (a : A)
  | Exited (code : Z)
  | Raised (exn : string).
Arguments Done {A} a.
Arguments Exited {A} code.
Arguments Raised {A} exn.

Definition IO (A : Type) : Type := World → list event * outcome A.

Definition io_ret {A} (a : A) : IO A := λ _, ([], Done a).

Definition io_bind {A B} (m : IO A) (f : A → IO B) : IO B := λ w,
  match m w with
  | (t, Done a) => let '(t', o) := f a w in (t ++ t', o)
  | (t, Exited code) => (t, Exited code)
  | (t, Raised exn) => (t, Raised exn)
  end.

Notation "x <<- m ;; k" := (io_bind m (λ x, k))
  (at level 100, m at next level, right associativity).
Notation "m >> k" := (io_bind m (λ _, k))
  (at level 100, right associativity).

Definition print (text : string) : IO unit := λ _, ([EPrint text], Done tt).
Definition sys_exit {A} (code : Z) : IO A := λ _, ([], Exited code).
Definition raise {A} (exn : string) : IO A := λ _, ([], Raised exn).

Definition path_exists (p : Path) : IO bool := λ w,
  ([EExists p],
   Done (bool_decide (p ∈ directories w) || bool_decide (p ∈ (files w).*1))).

(** The text of a file, if it is there *)
Definition file_text (w : World) (file : Path) : option string :=
  (λ found, found.2.2) <$> list_find (λ f, f.1 = file) (files w).

Definition read_text (file : Path) : IO string := λ w,
  ([ERead file],
   match file_text w file with
   | Some text => Done text
   | None => Raised "FileNotFoundError"
   end).

(** [fnmatch] for patterns made of literal characters and [*] *)
Fixpoint fnmatch (pattern name : string) : bool :=
  match pattern with
  | EmptyString => match name with EmptyString => true | _ => false end
  | String a pattern' =>
      if Ascii.eqb a "*" then
        (fix any (name : string) : bool :=
           fnmatch pattern' name ||
           match name with
           | EmptyString => false
           | String _ name' => any name'
           end) name
      else
        match name with
        | EmptyString => false
        | String b name' => Ascii.eqb a b && fnmatch pattern' name'
        end
  end.

(** The order of [pathlib] paths: that of their components. *)
Fixpoint parts_leb (ps qs : list string) : bool :=
  match ps, qs with
  | [], _ => true
  | _ :: _, [] => false
  | p :: ps', q :: qs' =>
      match String.compare p q with
      | Lt => true
      | Eq => parts_leb ps' qs'
      | Gt => false
      end
  end.

Definition path_leb (p q : Path) : bool :=
  parts_leb (path_parts p) (path_parts q).

Fixpoint insert_sorted (p : Path) (l : list Path) : list Path :=
  match l with
  | [] => [p]
  | q :: l' => if path_leb q p then q :: insert_sorted p l' else p :: l
  end.

(** [sorted(paths)] *)
Definition sorted (paths : list Path) : list Path :=
  foldr insert_sorted [] (reverse paths).

(** [dir.glob("US-*.md")]: the files of [dir] whose name fits. *)
Definition glob_stories (dir : Path) : IO (list Path) := λ w,
  ([EGlob dir],
   Done (filter (λ f, parent f = dir ∧ fnmatch "US-*.md" (path_name f) = true)
           (files w).*1)).

Fixpoint for_each {A} (l : list A) (body : A → IO unit) : IO unit :=
  match l with
  | [] => io_ret tt
  | x :: l' => body x >> for_each l' body
  end.

(** [d[k]] *)
Definition index {V} (d : gmap string V) (k : string) : IO V :=
  match d !! k with
  | Some v => io_ret v
  | None => raise "KeyError"
  end.

Definition lift {A} (r : result A) : IO A :=
  match r with
  | Ok a => io_ret a
  | TypeError => raise "TypeError"
  end.

Definition parse_markdown_file (filepath : Path) : IO (gmap string string) :=
  content <<- read_text filepath ;;
  io_ret (parse_content filepath content).

Definition rule : string := repeat_str "=" 80.

Definition create_issues_from_directory (user_stories_dir : Path)
    (repo_name : string) (dry_run : bool) : IO unit :=
  if negb dry_run then
    print "ERROR: GitHub API integration not yet enabled" >>
    print "To enable:" >>
    print "1. Uncomment the PyGithub import at the top" >>
    print "2. Uncomment the GitHub API code below" >>
    print "3. Set GITHUB_TOKEN environment variable" >>
    print "4. Run with --no-dry-run flag" >>
    io_ret tt
  else
    (* find all user story files *)
    found <<- glob_stories user_stories_dir ;;
    let story_files := sorted found in
    print ("Found " +:+ pretty (Z.of_nat (length story_files))
             +:+ " user story files" +:+ NL) >>
    for_each story_files (λ story_file,
      sections <<- parse_markdown_file story_file ;;
      story_id <<- index sections "story_id" ;;
      title <<- index sections "title" ;;
      let metadata := default ∅ (STORY_METADATA !! story_id) in
      labels <<- lift (get_labels story_id metadata) ;;
      let issue_title := "[USER STORY]: " +:+ story_id +:+ " - " +:+ title in
      let issue_body := generate_issue_body sections in
      print rule >>
      print ("Story: " +:+ story_id) >>
      print ("Title: " +:+ issue_title) >>
      print ("Labels: " +:+ join ", " labels) >>
      print ("Status: " +:+
             (if bool_decide (story_id ∈ COMPLETED_STORIES)
              then CHECK +:+ " COMPLETE" else CROSS +:+ " NOT STARTED")) >>
      print ("Body length: " +:+ pretty (py_len issue_body) +:+ " characters") >>
      (if dry_run then print "DRY RUN - Would create issue" else io_ret tt) >>
      print "").

Definition get_argv : IO (list string) := λ w, ([], Done (argv w)).
Definition get_script_file : IO Path := λ w, ([], Done (script_file w)).

Definition main : IO unit :=
  (* find the repository root *)
  file <<- get_script_file ;;
  let script_dir := parent file in
  let repo_root := parent script_dir in
  let user_stories_dir := repo_root // "docs" // "user-stories" in
  found <<- path_exists user_stories_dir ;;
  (if negb found then
     print ("ERROR: User stories directory not found: "
              +:+ path_str user_stories_dir) >>
     sys_exit 1
   else io_ret tt) >>
  let repo_name := "RoySalisbury/HVO.Enterprise" in
  args <<- get_argv ;;
  let dry_run := negb (bool_decide ("--no-dry-run" ∈ args)) in
  (if dry_run then
     print rule >>
     print "DRY RUN MODE - No issues will be created" >>
     print "Run with --no-dry-run to actually create issues" >>
     print rule >>
     print ""
   else io_ret tt) >>
  create_issues_from_directory user_stories_dir repo_name dry_run >>
  print (NL +:+ rule) >>
  print "Summary:" >>
  total <<- glob_stories user_stories_dir ;;
  print ("- Total stories: " +:+ pretty (Z.of_nat (length total))) >>
  print ("- Completed stories: " +:+ pretty (Z.of_nat (size COMPLETED_STORIES))) >>
  total' <<- glob_stories user_stories_dir ;;
  print ("- Not started stories: " +:+
         pretty (Z.of_nat (length total') - Z.of_nat (size COMPLETED_STORIES))) >>
  print rule.

(** The files a run has read *)
Definition files_read (trace : list event) : list Path :=
  omap (λ e, match e with ERead file => Some file | _ => None end) trace.

(** The lines a run has printed *)
Definition printed (trace : list event) : list string :=
  omap (λ e, match e with EPrint text => Some text | _ => None end) trace.

(** The exit status of the process *)
Definition exit_status {A} (o : outcome A) : Z :=
  match o with
  | Done _ => 0
  | Exited code => code
  | Raised _ => 1
  end.

(** ** Reading the label list

    The label deriver returns plain strings; a label is a status token when
    it starts with [status:] and a priority token when it starts with
    [priority:]. The category tokens are the four fixed ones. *)

Definition status_tokens (labels : list string) : list string :=
  filter (λ l, starts_with "status:" l = true) labels.

Definition priority_tokens (labels : list string) : list string :=
  filter (λ l, starts_with "priority:" l = true) labels.

Definition category_tokens (labels : list string) : list string :=
  filter (λ l, l ∈ ["core-package"; "extension-package"; "testing"; "documentation"])
    labels.

(** The status token of an identifier *)
Definition status_label (story_id : string) : string :=
  if bool_decide (story_id ∈ COMPLETED_STORIES)
  then "status:complete" else "status:not-started".

(** The label of a numeric field: none for a missing or zero value *)
Definition number_label (prefix : string) (v : option Z) : list string :=
  match v with
  | Some z => if z =? 0 then [] else [prefix +:+ pretty z]
  | None => []
  end.

(** Category routing, in the words of the specification: the first rule that
    matches wins. *)
Definition category_label (category : string) : list string :=
  if contains "Core Package" category then ["core-package"]
  else if contains "Extension Package" category then ["extension-package"]
  else if contains "Testing" category || contains "Samples" category then ["testing"]
  else if contains "Documentation" category then ["documentation"]
  else [].

(** The priority tier the specification gives to the sprints it lists:
    1, 2; 3, 4; 5 to 8; 9, 10; and to a missing sprint. *)
Definition listed_tier (sprint : option Z) : option string :=
  match sprint with
  | None => Some "priority:p3"
  | Some n =>
      if (1 <=? n) && (n <=? 2) then Some "priority:p0"
      else if (3 <=? n) && (n <=? 4) then Some "priority:p1"
      else if (5 <=? n) && (n <=? 8) then Some "priority:p2"
      else if (9 <=? n) && (n <=? 10) then Some "priority:p3"
      else None
  end.

(** The priority token of the code, for every integer: zero counts as no
    sprint. *)
Definition priority_label (sprint : option Z) : string :=
  match sprint with
  | Some z =>
      if z =? 0 then "priority:p3"
      else if z <=? 2 then "priority:p0"
      else if z <=? 4 then "priority:p1"
      else if z <=? 8 then "priority:p2"
      else "priority:p3"
  | None => "priority:p3"
  end.

(** The whole list, for a metadata dictionary of the table's shape *)
Definition labels_of (story_id : string) (m : StoryMeta) : list string :=
  ["user-story"; status_label story_id]
    ++ number_label "sp-" (meta_sp m)
    ++ number_label "sprint-" (meta_sprint m)
    ++ category_label (default "" (meta_category m))
    ++ [priority_label (meta_sprint m)].

(** Each part of the list has its own kind of label. *)
Definition label_rank (l : string) : nat :=
  if starts_with "user-story" l then 0
  else if starts_with "status:" l then 1
  else if starts_with "sp-" l then 2
  else if starts_with "sprint-" l then 3
  else if starts_with "priority:" l then 5
  else 4.

(** What every result of the label deriver looks like: the base marker
    first, one status token, one priority token, three to six labels. *)
Definition label_shape (r : result (list string)) : Prop :=
  ∃ labels,
    r = Ok labels
    ∧ head labels = Some "user-story"
    ∧ length (status_tokens labels) = 1%nat
    ∧ length (priority_tokens labels) = 1%nat
    ∧ (3 ≤ length labels ≤ 6)%nat.

(** ** The body, in the words of the specification

    The sections in their canonical order, each with its heading; a section
    is present when its text is not empty; a present section is rendered as
    its heading, a blank line and its text; the body is the present
    sections' blocks, one blank line between two of them. *)
Definition section_order : list (string * string) := [
  ("description", "Description");
  ("acceptance_criteria", "Acceptance Criteria");
  ("technical_requirements", "Technical Requirements");
  ("testing_requirements", "Testing Requirements");
  ("performance_requirements", "Performance Requirements");
  ("dependencies", "Dependencies");
  ("definition_of_done", "Definition of Done");
  ("notes", "Notes");
  ("related_docs", "Related Documentation")
].

Definition section_text (sections : gmap string string) (key : string) : string :=
  default "" (sections !! key).

Definition present (sections : gmap string string) (e : string * string) : Prop :=
  section_text sections e.1 ≠ "".

Global Instance present_dec sections e : Decision (present sections e).
Proof. unfold present. apply _. Defined.

Definition block (sections : gmap string string) (e : string * string) : string :=
  "## " +:+ e.2 +:+ NL +:+ NL +:+ section_text sections e.1.

Definition body_spec (sections : gmap string string) : string :=
  join (NL +:+ NL) (block sections <$> filter (present sections) section_order).

(** The directory the driver looks for *)
Definition user_stories_dir (w : World) : Path :=
  parent (parent (script_file w)) // "docs" // "user-stories".

(** ** The title, in the words of the specification

    The lines of a document are the pieces between line feeds. A title line
    is a level-1 heading made of a story identifier ([US-] and digits), a
    colon, a space and a non-empty text. *)
Definition lines (content : string) : list string := split LF content.

(** Every character of a text is in a class *)
Fixpoint all_in (c : cclass) (s : string) : bool :=
  match s with
  | EmptyString => true
  | String a s' => in_class c a && all_in c s'
  end.

Definition is_title_line (line text : string) : Prop :=
  ∃ digits,
    line = "# US-" +:+ digits +:+ ": " +:+ text
    ∧ digits ≠ "" ∧ all_in CDigit digits = true ∧ text ≠ "".

(** *** Scanning a text by hand, for the proofs *)

(** The longest run of characters of a class at the start of a text, and
    what follows it. *)
Fixpoint take_class (c : cclass) (s : string) : string :=
  match s with
  | String a s' => if in_class c a then String a (take_class c s') else ""
  | EmptyString => ""
  end.

Fixpoint drop_class (c : cclass) (s : string) : string :=
  match s with
  | String a s' => if in_class c a then drop_class c s' else s
  | EmptyString => ""
  end.

(** The first line of a text *)
Definition first_line (s : string) : string := take_class CDot s.

(** The texts that start after each line feed *)
Fixpoint line_starts (s : string) : list string :=
  match s with
  | EmptyString => []
  | String a s' =>
      if Ascii.eqb a LF then s' :: line_starts s' else line_starts s'
  end.

Fixpoint drop_prefix (l s : string) : option string :=
  match l with
  | EmptyString => Some s
  | String a l' =>
      match s with
      | EmptyString => None
      | String b s' => if Ascii.eqb a b then drop_prefix l' s' else None
      end
  end.

(** The title read at the start of a text, if its first line is a title
    line *)
Definition title_at (s : string) : option string :=
  s1 ← drop_prefix "# " s;
  s2 ← drop_prefix "US-" s1;
  if decide (take_class CDigit s2 = "") then None else
  s3 ← drop_prefix ": " (drop_class CDigit s2);
  if decide (first_line s3 = "") then None else Some (first_line s3).

Fixpoint first_title (starts : list string) : option string :=
  match starts with
  | [] => None
  | s :: starts' =>
      match title_at s with
      | Some text => Some text
      | None => first_title starts'
      end
  end.

(** The value the loop over [section_patterns] stores for a pattern *)
Definition section_value (content : string) (pattern : regex) : string :=
  match re_search pattern content with
  | Some caps => strip (group 1 caps)
  | None => ""
  end.

(** The keys of the dictionary returned by the parser *)
Definition field_names : list string := [
  "story_id"; "title"; "status"; "category"; "effort"; "sprint";
  "description"; "acceptance_criteria"; "technical_requirements";
  "testing_requirements"; "performance_requirements"; "dependencies";
  "definition_of_done"; "notes"; "related_docs"
].

(** ** Sample inputs *)

Definition sample_story : string :=
  "# US-004: Bounded Queue" +:+ NL +:+ NL +:+
  "**Status**: done" +:+ NL +:+
  "## Description  " +:+ NL +:+ NL +:+
  "  As a dev" +:+ NL +:+ "### sub" +:+ NL +:+ "text  " +:+ NL +:+ NL +:+
  "## Notes" +:+ NL +:+ "n1" +:+ NL.

Definition sample_dir : Path := MkPath true ["repo"; "docs"; "user-stories"].

Definition sample_world : World :=
  MkWorld (MkPath true ["repo"; "scripts"; "create-github-issues.py"])
    [sample_dir]
    [(sample_dir // "US-004-bounded-queue.md", sample_story);
     (sample_dir // "US-001-core-package-setup.md", "# US-001: Core Package Setup");
     (sample_dir // "README.md", "# User stories")]
    [].

(** A story record with all nine sections *)
Definition full_sections : gmap string string :=
  list_to_map [
    ("story_id", "US-004"); ("title", "Bounded Queue");
    ("description", "As a developer");
    ("acceptance_criteria", "- [ ] bounded");
    ("technical_requirements", "A queue");
    ("testing_requirements", "Unit tests");
    ("performance_requirements", "Fast");
    ("dependencies", "US-001");
    ("definition_of_done", "Merged");
    ("notes", "None yet");
    ("related_docs", "README")
  ].

(** The same installation without the user-stories directory *)
Definition bare_world : World :=
  MkWorld (MkPath true ["repo"; "scripts"; "create-github-issues.py"])
    [MkPath true ["repo"; "scripts"]] [] [].

(** ** The label deriver in stages *)

(** The stages of [get_labels], for the proofs: the labels before the
    category, the category stage and the priority stage. *)
Definition early_labels (story_id : string) (sp sprint : PyVal) : list string :=
  let labels := ["user-story"] in
  let labels :=
    if bool_decide (story_id ∈ COMPLETED_STORIES)
    then labels ++ ["status:complete"]
    else labels ++ ["status:not-started"] in
  let labels := if truthy sp then labels ++ ["sp-" +:+ py_str sp] else labels in
  if truthy sprint then labels ++ ["sprint-" +:+ py_str sprint] else labels.

Definition category_stage (labels : list string) (category : PyVal)
  : result (list string) :=
  core <- py_in "Core Package" category ;;
  if core then Ok (labels ++ ["core-package"]) else
  ext <- py_in "Extension Package" category ;;
  if ext then Ok (labels ++ ["extension-package"]) else
  testing <- py_in "Testing" category ;;
  samples <- (if testing then Ok true else py_in "Samples" category) ;;
  if samples then Ok (labels ++ ["testing"]) else
  doc <- py_in "Documentation" category ;;
  if doc then Ok (labels ++ ["documentation"]) else
  Ok labels.

Definition priority_stage (labels : list string) (sprint : PyVal)
  : result (list string) :=
  p0 <- sprint_at_most sprint 2 ;;
  if p0 then Ok (labels ++ ["priority:p0"]) else
  p1 <- sprint_at_most sprint 4 ;;
  if p1 then Ok (labels ++ ["priority:p1"]) else
  p2 <- sprint_at_most sprint 8 ;;
  if p2 then Ok (labels ++ ["priority:p2"]) else
  Ok (labels ++ ["priority:p3"]).

(** The priority token of a sprint value that can be compared *)
Definition priority_of (sprint : PyVal) : string :=
  match sprint with
  | PyInt z => priority_label (Some z)
  | _ => "priority:p3"
  end.

(** ** The driver, step by step *)

(** The story files of an installation: what [glob] finds in the
    user-stories directory *)
Definition story_files (w : World) : list Path :=
  filter (λ f, parent f = user_stories_dir w
               ∧ fnmatch "US-*.md" (path_name f) = true)
    (files w).*1.

(** The directory is there: [user_stories_dir.exists()] *)
Definition has_stories_dir (w : World) : bool :=
  bool_decide (user_stories_dir w ∈ directories w)
  || bool_decide (user_stories_dir w ∈ (files w).*1).

(** The report of one story in a dry run *)
Definition report_story (story_file : Path) : IO unit :=
  sections <<- parse_markdown_file story_file ;;
  story_id <<- index sections "story_id" ;;
  title <<- index sections "title" ;;
  let metadata := default ∅ (STORY_METADATA !! story_id) in
  labels <<- lift (get_labels story_id metadata) ;;
  let issue_title := "[USER STORY]: " +:+ story_id +:+ " - " +:+ title in
  let issue_body := generate_issue_body sections in
  print rule >>
  print ("Story: " +:+ story_id) >>
  print ("Title: " +:+ issue_title) >>
  print ("Labels: " +:+ join ", " labels) >>
  print ("Status: " +:+
         (if bool_decide (story_id ∈ COMPLETED_STORIES)
          then CHECK +:+ " COMPLETE" else CROSS +:+ " NOT STARTED")) >>
  print ("Body length: " +:+ pretty (py_len issue_body) +:+ " characters") >>
  print "DRY RUN - Would create issue" >>
  print "".

(** The lines printed after the stories *)
Definition summary (w : World) : list event :=
  [EPrint (NL +:+ rule);
   EPrint "Summary:";
   EGlob (user_stories_dir w);
   EPrint ("- Total stories: " +:+ pretty (Z.of_nat (length (story_files w))));
   EPrint ("- Completed stories: " +:+ pretty (Z.of_nat (size COMPLETED_STORIES)));
   EGlob (user_stories_dir w);
   EPrint ("- Not started stories: " +:+
           pretty (Z.of_nat (length (story_files w))
                   - Z.of_nat (size COMPLETED_STORIES)));
   EPrint rule].

(** The lines a dry run prints for one story *)
Definition report_lines (story_id title : string) (labels : list string)
    (issue_body : string) : list string :=
  [rule;
   "Story: " +:+ story_id;
   "Title: [USER STORY]: " +:+ story_id +:+ " - " +:+ title;
   "Labels: " +:+ join ", " labels;
   "Status: " +:+
     (if bool_decide (story_id ∈ COMPLETED_STORIES)
      then CHECK +:+ " COMPLETE" else CROSS +:+ " NOT STARTED");
   "Body length: " +:+ pretty (py_len issue_body) +:+ " characters";
   "DRY RUN - Would create issue";
   ""].

(** *** Scanning for a header field, for the proofs *)

(** The field read at the start of a text: the rest of the line after the
    label, if there is one *)
Definition field_at (label s : string) : option string :=
  rest ← drop_prefix label s;
  if decide (first_line rest = "") then None else Some (first_line rest).

Fixpoint first_field (label s : string) : option string :=
  match field_at label s with
  | Some value => Some value
  | None =>
      match s with
      | String _ s' => first_field label s'
      | EmptyString => None
      end
  end.

(** The header fields with their labels and defaults *)
Definition header_fields : list (string * (string * string)) := [
  ("status", ("**Status**: ", CROSS +:+ " Not Started"));
  ("category", ("**Category**: ", "Unknown"));
  ("effort", ("**Effort**: ", "Unknown"));
  ("sprint", ("**Sprint**: ", "Unknown"))
].

(** *** Scanning for a section, for the proofs *)

(** The text after the last line feed of the white space that starts a
    text, if that white space has a line feed *)
Fixpoint after_last_nl (s : string) : option string :=
  match s with
  | String a s' =>
      if is_space a then
        match after_last_nl s' with
        | Some rest => Some rest
        | None => if Ascii.eqb a LF then Some s' else None
        end
      else None
  | EmptyString => None
  end.

(** What ends a section: a line feed and a level-2 heading *)
Definition heading_mark : string := NL +:+ "## ".

(** A text up to its first heading mark, and from it on *)
Fixpoint until_heading (s : string) : string :=
  if starts_with heading_mark s then "" else
  match s with
  | String a s' => String a (until_heading s')
  | EmptyString => ""
  end.

Fixpoint from_heading (s : string) : string :=
  if starts_with heading_mark s then s else
  match s with
  | String a s' => from_heading s'
  | EmptyString => ""
  end.

(** The section read at the start of a text that starts with the heading *)
Definition section_at (heading s : string) : option string :=
  s1 ← drop_prefix heading s;
  s2 ← after_last_nl s1;
  Some (until_heading s2).

Fixpoint first_section (heading s : string) : option string :=
  match section_at heading s with
  | Some text => Some text
  | None =>
      match s with
      | String _ s' => first_section heading s'
      | EmptyString => None
      end
  end.

(** ** First occurrences, and more sample inputs *)

(** [hay.find(needle)]: where [needle] first occurs *)
Fixpoint find_first (needle hay : string) : option nat :=
  if starts_with needle hay then Some O else
  match hay with
  | String _ hay' => S <$> find_first needle hay'
  | EmptyString => None
  end.

(** The sample installation run with [--no-dry-run] *)
Definition live_world : World :=
  MkWorld (script_file sample_world) (directories sample_world)
    (files sample_world) ["create-github-issues.py"; "--no-dry-run"].

(** A document whose Notes section has no text of its own *)
Definition empty_notes_story : string :=
  "# US-009: Sampling" +:+ NL +:+ "## Notes" +:+ NL +:+ NL
    +:+ "## Related Documentation" +:+ NL +:+ "See README" +:+ NL.

(** ** Proof automation *)

(** Case analysis on the parts of a label list *)
Ltac by_cases :=
  unfold status_label, number_label, category_label, priority_label;
  repeat case_match; reflexivity.

(** * Properties *)

(** ** The label deriver on well-shaped metadata *)

Lemma meta_dict_sp m :
  dict_get (meta_dict m) "sp" = from_option PyInt PyNone (meta_sp m).
Proof. destruct m as [[?|] [?|] [?|]]; reflexivity. Qed.

Lemma meta_dict_sprint m :
  dict_get (meta_dict m) "sprint" = from_option PyInt PyNone (meta_sprint m).
Proof. destruct m as [[?|] [?|] [?|]]; reflexivity. Qed.

Lemma meta_dict_category m :
  dict_get_or (meta_dict m) "category" (PyStr "")
  = PyStr (default "" (meta_category m)).
Proof. destruct m as [[?|] [?|] [?|]]; reflexivity. Qed.

Lemma get_labels_meta story_id m :
  get_labels story_id (meta_dict m) = Ok (labels_of story_id m).
Proof.
  unfold get_labels, labels_of, status_label.
  rewrite meta_dict_sp, meta_dict_sprint, meta_dict_category.
  destruct m as [sprint sp category]; simpl.
  unfold category_label, priority_label, number_label, sprint_at_most, py_in, py_le;
    simpl.
  destruct (bool_decide _), sp as [sp|], sprint as [sprint|]; simpl;
    repeat (match goal with
            | |- context [if ?b then _ else _] => destruct b eqn:?
            end; simpl; try reflexivity; try lia).
Qed.

Lemma rank_status story_id : label_rank (status_label story_id) = 1%nat.
Proof. unfold status_label. by case_bool_decide. Qed.

Lemma rank_sp v :
  ∃ a : bool, label_rank <$> number_label "sp-" v = if a then [2%nat] else [].
Proof.
  destruct v as [z|]; simpl; [|by exists false].
  destruct (z =? 0); [by exists false | exists true; reflexivity].
Qed.

Lemma rank_sprint v :
  ∃ a : bool, label_rank <$> number_label "sprint-" v = if a then [3%nat] else [].
Proof.
  destruct v as [z|]; simpl; [|by exists false].
  destruct (z =? 0); [by exists false | exists true; reflexivity].
Qed.

Lemma rank_category c :
  ∃ a : bool, label_rank <$> category_label c = if a then [4%nat] else [].
Proof.
  unfold category_label.
  repeat case_match; (by exists true) || (by exists false).
Qed.

Lemma rank_priority sprint : label_rank (priority_label sprint) = 5%nat.
Proof. unfold priority_label. by repeat case_match. Qed.

Lemma rank_labels_of story_id m :
  ∃ a b c : bool,
    label_rank <$> labels_of story_id m
    = [0; 1]%nat ++ (if a then [2%nat] else []) ++ (if b then [3%nat] else [])
        ++ (if c then [4%nat] else []) ++ [5%nat].
Proof.
  destruct (rank_sp (meta_sp m)) as [a Ha], (rank_sprint (meta_sprint m)) as [b Hb],
    (rank_category (default "" (meta_category m))) as [c Hc].
  exists a, b, c. unfold labels_of. rewrite !fmap_app, Ha, Hb, Hc.
  simpl. by rewrite rank_status, rank_priority.
Qed.

Lemma nodup_labels_of story_id m : NoDup (labels_of story_id m).
Proof.
  apply (NoDup_fmap_1 label_rank).
  destruct (rank_labels_of story_id m) as (a & b & c & ->).
  apply (bool_decide_unpack _). by destruct a, b, c.
Qed.

Lemma length_labels_of story_id m :
  (3 ≤ length (labels_of story_id m) ≤ 6)%nat.
Proof.
  rewrite <- (length_fmap label_rank).
  destruct (rank_labels_of story_id m) as (a & b & c & ->).
  destruct a, b, c; simpl; lia.
Qed.

(** The tokens of one kind come from one part of the list. *)
Section tokens.

Context (P : string → Prop) `{∀ l, Decision (P l)}.

Lemma filter_labels_of story_id m :
  filter P (labels_of story_id m)
  = filter P ["user-story"; status_label story_id]
      ++ filter P (number_label "sp-" (meta_sp m))
      ++ filter P (number_label "sprint-" (meta_sprint m))
      ++ filter P (category_label (default "" (meta_category m)))
      ++ filter P [priority_label (meta_sprint m)].
Proof. unfold labels_of. by rewrite !filter_app. Qed.

End tokens.

Lemma status_tokens_labels_of story_id m :
  status_tokens (labels_of story_id m) = [status_label story_id].
Proof.
  unfold status_tokens. rewrite filter_labels_of.
  change [status_label story_id]
    with ([status_label story_id] ++ [] ++ [] ++ [] ++ []).
  repeat apply (f_equal2 app); by_cases.
Qed.

Lemma priority_tokens_labels_of story_id m :
  priority_tokens (labels_of story_id m) = [priority_label (meta_sprint m)].
Proof.
  unfold priority_tokens. rewrite filter_labels_of.
  change [priority_label (meta_sprint m)]
    with ([] ++ [] ++ [] ++ [] ++ [priority_label (meta_sprint m)]).
  repeat apply (f_equal2 app); by_cases.
Qed.

Lemma category_tokens_labels_of story_id m :
  category_tokens (labels_of story_id m)
  = category_label (default "" (meta_category m)).
Proof.
  unfold category_tokens. rewrite filter_labels_of.
  rewrite <- (app_nil_r (category_label _)) at 2.
  change (category_label (default "" (meta_category m)) ++ [])
    with ([] ++ [] ++ [] ++ category_label (default "" (meta_category m)) ++ []).
  repeat apply (f_equal2 app); by_cases.
Qed.

(** ** Claims about the label deriver *)

(** C1 (as the code has it). For "US-004" with the metadata
    {sprint: 2, sp: 8, category: "Core Package"} the label deriver returns
    the base marker, the "complete" status token, sp-8, sprint-2,
    core-package and priority:p0: "US-004" is in the completed set. The
    same metadata gives the "not-started" list for "US-006", which is not
    in the set. *)
Theorem get_labels_US004 :
  "US-004" ∈ COMPLETED_STORIES
  ∧ STORY_METADATA !! "US-004" = Some (entry 2 8 "Core Package")
  ∧ get_labels "US-004" (entry 2 8 "Core Package")
    = Ok ["user-story"; "status:complete"; "sp-8"; "sprint-2";
          "core-package"; "priority:p0"]
  ∧ get_labels "US-006" (entry 2 8 "Core Package")
    = Ok ["user-story"; "status:not-started"; "sp-8"; "sprint-2";
          "core-package"; "priority:p0"].
Proof. split; [by vm_compute | by vm_compute]. Qed.

(** C1, as the specification states it, fails: for "US-004" the list with
    the "not-started" token is not what the label deriver returns. *)
Lemma get_labels_US004_not_started_fails :
  get_labels "US-004" (entry 2 8 "Core Package")
  ≠ Ok ["user-story"; "status:not-started"; "sp-8"; "sprint-2";
        "core-package"; "priority:p0"].
Proof. by vm_compute. Qed.

(** C2. The label deriver returns exactly one priority token; it is the
    tier the specification lists for the sprint: p0 for 1 and 2, p1 for 3
    and 4, p2 for 5 to 8, p3 for 9 and 10 and for a missing sprint. *)
Theorem get_labels_priority story_id m :
  ∃ labels token,
    get_labels story_id (meta_dict m) = Ok labels
    ∧ priority_tokens labels = [token]
    ∧ ∀ tier, listed_tier (meta_sprint m) = Some tier → token = tier.
Proof.
  exists (labels_of story_id m), (priority_label (meta_sprint m)).
  split; [apply get_labels_meta|]. split; [apply priority_tokens_labels_of|].
  intros tier. unfold listed_tier, priority_label.
  destruct (meta_sprint m) as [n|]; [|congruence].
  repeat case_match; try congruence; lia.
Qed.

(** C3. The label deriver returns exactly one status token: "complete" when
    the identifier is in the completed set and "not-started" otherwise,
    whatever the metadata. *)
Theorem get_labels_status story_id m :
  ∃ labels,
    get_labels story_id (meta_dict m) = Ok labels
    ∧ status_tokens labels
      = [if bool_decide (story_id ∈ COMPLETED_STORIES)
         then "status:complete" else "status:not-started"].
Proof.
  exists (labels_of story_id m). split; [apply get_labels_meta|].
  apply status_tokens_labels_of.
Qed.

(** C4 (as the code has it). The category rules are tried in order and the
    first match wins: "Core Package", then "Extension Package", then
    "Testing" or "Samples", then "Documentation", else no category token.
    A category with both "Testing" and "Documentation" never gets the
    documentation token, and gets the testing token when neither
    "Core Package" nor "Extension Package" occurs in it. *)
Theorem get_labels_category story_id m :
  let category := default "" (meta_category m) in
  ∃ labels,
    get_labels story_id (meta_dict m) = Ok labels
    ∧ category_tokens labels = category_label category
    ∧ (contains "Testing" category = true →
       contains "Documentation" category = true →
       ("documentation" ∉ labels)
       ∧ (contains "Core Package" category = false →
          contains "Extension Package" category = false →
          category_tokens labels = ["testing"])).
Proof.
  intros category. exists (labels_of story_id m).
  split; [apply get_labels_meta|].
  pose proof (category_tokens_labels_of story_id m) as Htok.
  fold category in Htok. split; [done|].
  intros Htest Hdoc. split.
  - intros Hin.
    assert ("documentation" ∈ category_tokens (labels_of story_id m)) as Hc.
    { apply list_elem_of_filter. split; [|done]. by apply (bool_decide_unpack _). }
    rewrite Htok in Hc. unfold category_label in Hc. rewrite Htest in Hc.
    destruct (contains "Core Package" category),
      (contains "Extension Package" category);
      apply list_elem_of_In in Hc; simpl in Hc; intuition discriminate.
  - intros Hcore Hext. rewrite Htok. unfold category_label.
    by rewrite Hcore, Hext, Htest.
Qed.

(** C4, as stated, fails: this category has both "Testing" and
    "Documentation", and the label deriver gives it the core-package token,
    not the testing token. *)
Lemma get_labels_category_core_wins :
  let category := "Core Package: Testing and Documentation" in
  contains "Testing" category = true
  ∧ contains "Documentation" category = true
  ∧ get_labels "US-031" (meta_dict (Meta None None (Some category)))
    = Ok ["user-story"; "status:not-started"; "core-package"; "priority:p3"]
  ∧ "testing" ∉ ["user-story"; "status:not-started"; "core-package"; "priority:p3"].
Proof.
  repeat split; try by vm_compute.
  apply (bool_decide_unpack _). by vm_compute.
Qed.

(** C5. For every identifier and every metadata dictionary (of the shape of
    the table: integer sprint and story points, string category, each
    possibly missing) the label deriver raises no error and returns a list
    without duplicates. *)
Theorem get_labels_no_duplicates story_id m :
  ∃ labels, get_labels story_id (meta_dict m) = Ok labels ∧ NoDup labels.
Proof.
  exists (labels_of story_id m).
  split; [apply get_labels_meta | apply nodup_labels_of].
Qed.

Lemma entry_meta sprint sp category :
  entry sprint sp category = meta_dict (Meta (Some sprint) (Some sp) (Some category)).
Proof. reflexivity. Qed.

Lemma story_metadata_shape story_id :
  ∃ m, default ∅ (STORY_METADATA !! story_id) = meta_dict m.
Proof.
  destruct (STORY_METADATA !! story_id) as [d|] eqn:Hd; simpl.
  - apply elem_of_list_to_map_2 in Hd.
    repeat (apply elem_of_cons in Hd as [[= _ ->]|Hd]; [rewrite entry_meta; eauto|]).
    by apply elem_of_nil in Hd.
  - by exists (Meta None None None).
Qed.

Lemma label_shape_labels_of story_id m : label_shape (Ok (labels_of story_id m)).
Proof.
  exists (labels_of story_id m). split; [done|]. split; [done|].
  rewrite status_tokens_labels_of, priority_tokens_labels_of.
  split; [done|]. split; [done|]. apply length_labels_of.
Qed.

(** C10. Whatever the identifier and the metadata dictionary, the empty one
    of an identifier without entry included, the result starts with
    "user-story", has exactly one status token and exactly one priority
    token, and so has between three and six labels. *)
Theorem get_labels_shape story_id :
  (∀ m, label_shape (get_labels story_id (meta_dict m)))
  ∧ label_shape (get_labels story_id ∅)
  ∧ label_shape (get_labels story_id (default ∅ (STORY_METADATA !! story_id))).
Proof.
  assert (∀ m, label_shape (get_labels story_id (meta_dict m))) as Hshape.
  { intros m. rewrite get_labels_meta. apply label_shape_labels_of. }
  split; [done|]. split.
  - apply (Hshape (Meta None None None)).
  - destruct (story_metadata_shape story_id) as [m ->]. apply Hshape.
Qed.

(** Outside the shape of the table the label deriver can fail: a sprint
    that is a non-empty string cannot be compared with a number, and a
    category that is not a string cannot be searched. *)
Remark get_labels_type_errors :
  get_labels "US-031" {[ "sprint" := PyStr "Unknown" ]} = TypeError
  ∧ get_labels "US-031" {[ "category" := PyNone ]} = TypeError.
Proof. split; by vm_compute. Qed.

(** ** The body assembly *)

Lemma add_block_spec sections key heading parts :
  add_block sections key heading parts
  = parts ++ (block sections <$> filter (present sections) [(key, heading)]).
Proof.
  unfold add_block.
  destruct (decide (present sections (key, heading))) as [Hp|Hp].
  - rewrite filter_cons_True, filter_nil by done.
    unfold block. unfold present, section_text in *. simpl in *.
    destruct (sections !! key) as [text|]; simpl in *; [|done].
    by destruct (String.eqb_spec text "").
  - rewrite filter_cons_False, filter_nil, app_nil_r by done.
    unfold present, section_text in Hp. simpl in Hp.
    destruct (sections !! key) as [text|]; simpl in *; [|done].
    by destruct (String.eqb_spec text "").
Qed.

Lemma filter_Forall {A} (P : A → Prop) `{∀ x, Decision (P x)} (l : list A) :
  Forall P l → filter P l = l.
Proof.
  induction 1 as [|x l Hx _ IH]; [done|].
  by rewrite filter_cons_True, IH.
Qed.

Lemma body_parts_spec sections :
  body_parts sections = block sections <$> filter (present sections) section_order.
Proof.
  unfold body_parts. rewrite !add_block_spec, <- !app_assoc, app_nil_l.
  rewrite <- !fmap_app, <- !filter_app. reflexivity.
Qed.

(** C7. The body is the blocks of the present sections, each a heading
    line, a blank line and the text, in the canonical order and joined by
    one blank line; an empty or missing section adds nothing. With all
    nine sections present there are exactly the nine blocks, in order. *)
Theorem generate_issue_body_blocks sections :
  generate_issue_body sections = body_spec sections
  ∧ (Forall (present sections) section_order →
     body_parts sections = block sections <$> section_order
     ∧ length (body_parts sections) = 9%nat).
Proof.
  split.
  - unfold generate_issue_body, body_spec. by rewrite body_parts_spec.
  - intros Hall. by rewrite body_parts_spec, filter_Forall.
Qed.

(** ** The matcher *)

Lemma strip_prefix_spec l prev s :
  match drop_prefix l s with
  | Some s' => ∃ p, strip_prefix l prev s = Some (p, s')
  | None => strip_prefix l prev s = None
  end.
Proof.
  revert prev s. induction l as [|a l IH]; intros prev s; simpl; [eauto|].
  destruct s as [|b s]; [done|]. destruct (Ascii.eqb a b); [apply IH | done].
Qed.

Lemma star_greedy_max {R} c (k : option ascii → string → option R) s prev :
  (∀ p a s', in_class c a = true → k p (String a s') = None) →
  ∃ p, star_greedy c prev s k = k p (drop_class c s).
Proof.
  intros Hk. revert prev. induction s as [|a s IH]; intros prev; simpl; [eauto|].
  destruct (in_class c a) eqn:Ha; [|eauto].
  destruct (IH (Some a)) as [p Hp]. rewrite Hp.
  destruct (k p (drop_class c s)) eqn:Hr; [eauto|].
  rewrite (Hk prev a s Ha). eauto.
Qed.

Lemma app_cons a s1 s2 : String a s1 +:+ s2 = String a (s1 +:+ s2).
Proof. reflexivity. Qed.

Lemma app_empty s : "" +:+ s = s.
Proof. reflexivity. Qed.

Lemma take_drop_class c s : take_class c s +:+ drop_class c s = s.
Proof.
  induction s as [|a s IH]; simpl; [done|].
  destruct (in_class c a); [by rewrite app_cons, IH | done].
Qed.

Lemma string_length_app s1 s2 :
  String.length (s1 +:+ s2) = (String.length s1 + String.length s2)%nat.
Proof.
  induction s1 as [|a s1 IH]; [done|]. rewrite app_cons. simpl. by rewrite IH.
Qed.

Lemma substring_app_l s1 s2 :
  String.substring 0 (String.length s1) (s1 +:+ s2) = s1.
Proof.
  induction s1 as [|a s1 IH].
  - rewrite app_empty. by destruct s2.
  - rewrite app_cons. simpl. by rewrite IH.
Qed.

Lemma consumed_app s1 s2 : consumed (s1 +:+ s2) s2 = s1.
Proof.
  unfold consumed. rewrite string_length_app.
  replace (String.length s1 + String.length s2 - String.length s2)%nat
    with (String.length s1) by lia.
  apply substring_app_l.
Qed.

Lemma consumed_drop_class c s : consumed s (drop_class c s) = take_class c s.
Proof. rewrite <- (take_drop_class c s) at 1. apply consumed_app. Qed.

Lemma at_eol_drop_dot s : at_eol (drop_class CDot s) = true.
Proof.
  induction s as [|a s IH]; simpl; [done|].
  destruct (Ascii.eqb a LF) eqn:Ha; simpl; [|done].
  unfold at_eol. by rewrite Ha.
Qed.

Lemma match_title_at prev s :
  at_bol prev = true →
  match title_at s with
  | Some text => ∃ caps, match_at title_re prev s = Some caps ∧ group 2 caps = text
  | None => match_at title_re prev s = None
  end.
Proof.
  intros Hbol. unfold match_at, title_re, title_at. cbn [rmatch]. rewrite Hbol.
  pose proof (strip_prefix_spec "# " prev s) as H1.
  destruct (drop_prefix "# " s) as [s1|]; cbn [mbind option_bind]; [|by rewrite H1].
  destruct H1 as [p1 ->].
  pose proof (strip_prefix_spec "US-" p1 s1) as H2.
  destruct (drop_prefix "US-" s1) as [s2|]; cbn [mbind option_bind]; [|by rewrite H2].
  destruct H2 as [p2 ->].
  destruct s2 as [|a s3]; [done|]. cbn [take_class drop_class].
  destruct (in_class CDigit a) eqn:Ha; [|done].
  rewrite decide_False by done.
  match goal with
  | |- context [star_greedy CDigit (Some a) s3 ?k] =>
      destruct (star_greedy_max CDigit k s3 (Some a)) as [p3 ->]
  end.
  { intros p d s' Hd. cbn [strip_prefix].
    destruct (Ascii.eqb_spec ":" d) as [<-|]; [done|done]. }
  pose proof (strip_prefix_spec ": " p3 (drop_class CDigit s3)) as H3.
  destruct (drop_prefix ": " (drop_class CDigit s3)) as [s4|];
    cbn [mbind option_bind]; [|by rewrite H3].
  destruct H3 as [p4 ->].
  destruct s4 as [|b s5]; [done|]. unfold first_line. cbn [take_class].
  destruct (in_class CDot b) eqn:Hb; [|done].
  rewrite decide_False by done.
  match goal with
  | |- context [star_greedy CDot (Some b) s5 ?k] =>
      destruct (star_greedy_max CDot k s5 (Some b)) as [p5 ->]
  end.
  { intros p d s' Hd. unfold at_eol. simpl in Hd. by destruct (Ascii.eqb d LF). }
  rewrite at_eol_drop_dot. eexists. split; [done|]. cbn [group Nat.eqb].
  pose proof (consumed_drop_class CDot (String b s5)) as Hc.
  cbn [take_class drop_class] in Hc. by rewrite Hb in Hc.
Qed.

Lemma match_title_not_bol prev s :
  at_bol prev = false → match_at title_re prev s = None.
Proof. intros Hbol. unfold match_at, title_re. cbn [rmatch]. by rewrite Hbol. Qed.

(** [re.search] with the title pattern tries the line starts in turn. *)
Lemma search_title s :
  ∀ prev,
    group 2 <$> search_from title_re prev s
    = first_title ((if at_bol prev then [s] else []) ++ line_starts s).
Proof.
  induction s as [|a s IH]; intros prev.
  - cbn [search_from line_starts]. destruct (at_bol prev) eqn:Hbol.
    + pose proof (match_title_at prev "" Hbol) as Hm. cbn [app first_title].
      destruct (title_at ""); [by destruct Hm as (caps & -> & <-)|by rewrite Hm].
    + by rewrite match_title_not_bol.
  - cbn [search_from line_starts]. destruct (at_bol prev) eqn:Hbol.
    + pose proof (match_title_at prev (String a s) Hbol) as Hm.
      cbn [app first_title].
      destruct (title_at (String a s)); [by destruct Hm as (caps & -> & <-)|].
      rewrite Hm, IH. cbn [at_bol]. by destruct (Ascii.eqb a LF).
    + rewrite match_title_not_bol, IH by done.
      cbn [at_bol]. by destruct (Ascii.eqb a LF).
Qed.

Lemma title_search content :
  group_or 2 (re_search title_re content) "Unknown Title"
  = default "Unknown Title" (first_title (content :: line_starts content)).
Proof.
  unfold re_search, group_or. pose proof (search_title content None) as H.
  cbn [at_bol app] in H. rewrite <- H.
  by destruct (search_from title_re None content).
Qed.

(** ** Lines and title lines *)

Lemma lines_starts s : lines s = first_line <$> (s :: line_starts s).
Proof.
  unfold lines, first_line. induction s as [|a s IH]; [done|].
  cbn [split line_starts take_class in_class fmap list_fmap] in *.
  destruct (Ascii.eqb a LF); cbn [negb].
  - by rewrite IH.
  - by rewrite IH.
Qed.

Lemma drop_prefix_Some l s s' : drop_prefix l s = Some s' → s = l +:+ s'.
Proof.
  revert s. induction l as [|a l IH]; intros s; simpl; [by intros [= ->]|].
  destruct s as [|b s]; [done|]. destruct (Ascii.eqb_spec a b) as [->|]; [|done].
  intros ->%IH. done.
Qed.

Lemma drop_prefix_app l s : drop_prefix l (l +:+ s) = Some s.
Proof.
  induction l as [|a l IH]; [done|]. rewrite app_cons. simpl.
  by rewrite Ascii.eqb_refl.
Qed.

Lemma all_in_take c s : all_in c (take_class c s) = true.
Proof.
  induction s as [|a s IH]; [done|]. simpl.
  destruct (in_class c a) eqn:Ha; [|done]. simpl. by rewrite Ha.
Qed.

Lemma take_class_app c d x :
  all_in c d = true →
  take_class c (d +:+ x) = d +:+ take_class c x
  ∧ drop_class c (d +:+ x) = drop_class c x.
Proof.
  induction d as [|a d IH]; [done|]. rewrite !app_cons. simpl.
  intros [Ha Hd]%andb_true_iff. rewrite Ha. destruct (IH Hd) as [-> ->]. done.
Qed.

Lemma all_in_app c s1 s2 : all_in c (s1 +:+ s2) = all_in c s1 && all_in c s2.
Proof.
  induction s1 as [|a s1 IH]; [done|]. rewrite app_cons. simpl.
  by rewrite IH, andb_assoc.
Qed.

Lemma digit_not_LF a : is_digit a = true → in_class CDot a = true.
Proof.
  intros Ha. simpl. destruct (Ascii.eqb_spec a LF) as [->|]; [done|done].
Qed.

Lemma all_digits_dot d : all_in CDigit d = true → all_in CDot d = true.
Proof.
  induction d as [|a d IH]; [done|]. cbn [all_in].
  intros [Ha Hd]%andb_true_iff. by rewrite (digit_not_LF a Ha), IH.
Qed.

Lemma take_class_stop c x :
  match x with "" => True | String a _ => in_class c a = false end →
  take_class c x = "" ∧ drop_class c x = x.
Proof. destruct x as [|a x]; simpl; [by split|]. intros ->. by split. Qed.

Lemma first_line_app d x :
  all_in CDot d = true → first_line (d +:+ x) = d +:+ first_line x.
Proof. intros Hd. unfold first_line. by destruct (take_class_app CDot d x Hd) as [-> _]. Qed.

Lemma app_empty_r s : s +:+ "" = s.
Proof. induction s as [|a s IH]; [done|]. by rewrite app_cons, IH. Qed.

Lemma app_assoc s1 s2 s3 : (s1 +:+ s2) +:+ s3 = s1 +:+ s2 +:+ s3.
Proof. induction s1 as [|a s1 IH]; [done|]. by rewrite !app_cons, IH. Qed.

Lemma take_class_drop_class c s : take_class c (drop_class c s) = "".
Proof.
  induction s as [|a s IH]; [done|]. simpl.
  destruct (in_class c a) eqn:Ha; [done|]. simpl. by rewrite Ha.
Qed.

Lemma title_at_spec s text :
  title_at s = Some text ↔ is_title_line (first_line s) text.
Proof.
  split.
  - unfold title_at. intros H.
    destruct (drop_prefix "# " s) as [s1|] eqn:H1;
      cbn [mbind option_bind] in H; [|done].
    destruct (drop_prefix "US-" s1) as [s2|] eqn:H2;
      cbn [mbind option_bind] in H; [|done].
    case_decide as Hd; [done|].
    destruct (drop_prefix ": " (drop_class CDigit s2)) as [s3|] eqn:H3;
      cbn [mbind option_bind] in H; [|done].
    case_decide as Ht; [done|].
    injection H as <-.
    apply drop_prefix_Some in H1 as ->. apply drop_prefix_Some in H2 as ->.
    apply drop_prefix_Some in H3.
    exists (take_class CDigit s2). split; [|by rewrite all_in_take].
    rewrite <- (take_drop_class CDigit s2) at 1. rewrite H3.
    rewrite !first_line_app; [done|done|..|done|done].
    apply all_digits_dot, all_in_take.
  - intros (digits & Hline & Hd & Hdigits & Ht).
    pose proof (take_drop_class CDot s) as Hs. fold (first_line s) in Hs.
    assert (all_in CDot (first_line s) = true) as Hall by apply all_in_take.
    rewrite Hline in Hs, Hall. rewrite <- Hs. clear Hs Hline.
    rewrite !all_in_app in Hall.
    apply andb_true_iff in Hall as [_ [_ [_ Htext]%andb_true_iff]%andb_true_iff].
    unfold title_at. rewrite !app_assoc.
    change ("# US-" +:+ ?x) with ("# " +:+ "US-" +:+ x).
    rewrite drop_prefix_app. cbn [mbind option_bind].
    rewrite drop_prefix_app. cbn [mbind option_bind].
    destruct (take_class_app CDigit digits (": " +:+ text +:+ drop_class CDot s))
      as [-> ->]; [done|].
    rewrite decide_False by (by destruct digits).
    change (drop_class CDigit (": " +:+ ?x)) with (": " +:+ x).
    rewrite drop_prefix_app. cbn [mbind option_bind].
    rewrite first_line_app by done. unfold first_line.
    rewrite (take_class_drop_class CDot s), app_empty_r.
    by rewrite decide_False.
Qed.

Lemma first_title_app_None before starts :
  (∀ s, s ∈ before → title_at s = None) →
  first_title (before ++ starts) = first_title starts.
Proof.
  induction before as [|s before IH]; intros Hnone; [done|]. simpl.
  rewrite (Hnone s) by apply list_elem_of_here.
  apply IH. intros s' Hs'. apply Hnone. by apply list_elem_of_further.
Qed.

Lemma first_title_None starts :
  (∀ s, s ∈ starts → title_at s = None) → first_title starts = None.
Proof.
  intros Hnone. rewrite <- (app_nil_r starts).
  by rewrite first_title_app_None.
Qed.

(** The title field as the first title line of the document *)
Lemma title_first_line content title :
  title = group_or 2 (re_search title_re content) "Unknown Title" →
  (∀ before line after text,
     lines content = before ++ line :: after →
     is_title_line line text →
     (∀ l t, l ∈ before → ¬ is_title_line l t) →
     title = text)
  ∧ ((∀ l t, l ∈ lines content → ¬ is_title_line l t) → title = "Unknown Title").
Proof.
  intros ->. rewrite title_search, lines_starts.
  set (starts := content :: line_starts content). split.
  - intros before line after text Hsplit Hline Hbefore.
    apply fmap_app_inv in Hsplit as (B & rest & -> & Hrest & ->).
    symmetry in Hrest.
    apply fmap_cons_inv in Hrest as (s & A & -> & -> & ->).
    rewrite first_title_app_None.
    + simpl. apply title_at_spec in Hline. by rewrite Hline.
    + intros b Hb. destruct (title_at b) as [t|] eqn:Ht; [|done].
      apply title_at_spec in Ht. destruct (Hbefore (first_line b) t); [|done].
      by apply list_elem_of_fmap_2.
  - intros Hnone. rewrite first_title_None; [done|].
    intros s Hs. destruct (title_at s) as [t|] eqn:Ht; [|done].
    apply title_at_spec in Ht. destruct (Hnone (first_line s) t); [|done].
    by apply list_elem_of_fmap_2.
Qed.

(** ** The story parser *)

Lemma strip_prefix_starts l prev s :
  starts_with l s = false → strip_prefix l prev s = None.
Proof.
  revert prev s. induction l as [|a l IH]; intros prev s; simpl; [done|].
  destruct s as [|b s]; [done|]. destruct (Ascii.eqb a b); simpl; [apply IH|done].
Qed.

(** A pattern that starts with a literal matches nowhere in a text that
    does not contain the literal. *)
Lemma search_literal_absent l r s :
  contains l s = false → ∀ prev, search_from (Lit l ⋅ r) prev s = None.
Proof.
  induction s as [|a s IH]; cbn [contains]; intros [Hl Hs]%orb_false_iff prev;
    cbn [search_from]; unfold match_at; cbn [rmatch];
    rewrite (strip_prefix_starts l prev _ Hl); [done|by apply IH].
Qed.

Lemma extract_section_lookup content sections e key :
  extract_section content sections e !! key
  = if decide (e.1 = key) then Some (section_value content e.2) else sections !! key.
Proof.
  destruct e as [name pattern]. unfold extract_section, section_value. simpl.
  destruct (re_search pattern content); rewrite lookup_insert; by case_decide.
Qed.

Lemma foldl_extract_other content patterns key :
  key ∉ patterns.*1 →
  ∀ sections,
    foldl (extract_section content) sections patterns !! key = sections !! key.
Proof.
  induction patterns as [|e patterns IH]; intros Hkey sections; [done|].
  rewrite fmap_cons, not_elem_of_cons in Hkey. destruct Hkey as [Hne Hkey].
  simpl. rewrite IH, extract_section_lookup by done. by rewrite decide_False.
Qed.

Lemma foldl_extract_lookup content patterns key pattern :
  NoDup patterns.*1 → (key, pattern) ∈ patterns →
  ∀ sections,
    foldl (extract_section content) sections patterns !! key
    = Some (section_value content pattern).
Proof.
  induction patterns as [|e patterns IH]; intros Hnodup Hin sections.
  - by apply elem_of_nil in Hin.
  - rewrite fmap_cons in Hnodup. apply NoDup_cons in Hnodup as [Hfresh Hnodup].
    apply elem_of_cons in Hin as [<-|Hin]; cbn [foldl].
    + rewrite foldl_extract_other, extract_section_lookup by done.
      by rewrite decide_True.
    + by apply IH.
Qed.

Lemma foldl_extract_dom content patterns :
  ∀ sections,
    dom (foldl (extract_section content) sections patterns)
    = list_to_set patterns.*1 ∪ dom sections.
Proof.
  induction patterns as [|[name pattern] patterns IH]; intros sections; simpl.
  - by rewrite (left_id_L ∅ (∪)).
  - rewrite IH. unfold extract_section.
    destruct (re_search pattern content); rewrite dom_insert_L;
      by rewrite (assoc_L (∪)), (comm_L (∪) _ {[name]}).
Qed.

Lemma section_patterns_order :
  section_patterns
  = (λ e, (e.1, Lit ("## " +:+ e.2) ⋅ section_rest)) <$> section_order.
Proof. reflexivity. Qed.

Lemma section_keys_nodup : NoDup section_patterns.*1.
Proof. apply (bool_decide_unpack _). by vm_compute. Qed.

Lemma parse_content_section filepath content key heading :
  (key, heading) ∈ section_order →
  parse_content filepath content !! key
  = Some (section_value content (Lit ("## " +:+ heading) ⋅ section_rest)).
Proof.
  intros Hin. unfold parse_content.
  apply foldl_extract_lookup; [apply section_keys_nodup|].
  rewrite section_patterns_order.
  by apply (list_elem_of_fmap_2 (λ e, (e.1, Lit ("## " +:+ e.2) ⋅ section_rest))
              _ (key, heading)).
Qed.

Lemma parse_content_title filepath content :
  parse_content filepath content !! "title"
  = Some (group_or 2 (re_search title_re content) "Unknown Title").
Proof.
  unfold parse_content. rewrite foldl_extract_other.
  - by rewrite !lookup_insert_ne, lookup_insert_eq by done.
  - apply (bool_decide_unpack _). by vm_compute.
Qed.

Lemma parse_content_dom filepath content :
  dom (parse_content filepath content) = list_to_set field_names.
Proof.
  unfold parse_content. rewrite foldl_extract_dom, !dom_insert_L, dom_empty_L.
  apply (bool_decide_unpack _). by vm_compute.
Qed.




(** ** The driver *)

(** C9. When the user-stories directory does not exist, the run prints one
    line, the error message with the path of the directory, and exits with
    status 1; it lists no directory and reads no file. *)
Theorem main_missing_directory w :
  user_stories_dir w ∉ directories w →
  user_stories_dir w ∉ (files w).*1 →
  main w
  = ([EExists (user_stories_dir w);
      EPrint ("ERROR: User stories directory not found: "
                +:+ path_str (user_stories_dir w))],
     Exited 1)
  ∧ exit_status (main w).2 ≠ 0.
Proof.
  intros Hdir Hfile.
  assert (main w
          = ([EExists (user_stories_dir w);
              EPrint ("ERROR: User stories directory not found: "
                        +:+ path_str (user_stories_dir w))],
             Exited 1)) as ->; [|done].
  unfold main, io_bind, get_script_file, path_exists. simpl.
  fold (user_stories_dir w).
  by rewrite !bool_decide_false by done.
Qed.

Lemma main_missing_directory_witness :
  (user_stories_dir bare_world ∉ directories bare_world)
  ∧ (user_stories_dir bare_world ∉ (files bare_world).*1)
  ∧ main bare_world
    = ([EExists (MkPath true ["repo"; "docs"; "user-stories"]);
        EPrint "ERROR: User stories directory not found: /repo/docs/user-stories"],
       Exited 1)
  ∧ exit_status (main bare_world).2 ≠ 0.
Proof.
  assert (user_stories_dir bare_world ∉ directories bare_world) as Hdir.
  { apply (bool_decide_unpack _). vm_compute. reflexivity. }
  assert (user_stories_dir bare_world ∉ (files bare_world).*1) as Hfile.
  { apply (bool_decide_unpack _). vm_compute. reflexivity. }
  split; [exact Hdir|]. split; [exact Hfile|].
  exact (main_missing_directory bare_world Hdir Hfile).
Defined.

(** ** The claims on the sample inputs *)



Lemma get_labels_priority_witness :
  listed_tier (Some 3) = Some "priority:p1"
  ∧ ∃ labels token,
      get_labels "US-003" (meta_dict (Meta (Some 3) (Some 5) (Some "Core Package")))
      = Ok labels
      ∧ priority_tokens labels = [token]
      ∧ ∀ tier, listed_tier (Some 3) = Some tier → token = tier.
Proof.
  split; [reflexivity|].
  exact (get_labels_priority "US-003" (Meta (Some 3) (Some 5) (Some "Core Package"))).
Defined.

Lemma get_labels_category_witness :
  contains "Testing" "Testing & Documentation" = true
  ∧ contains "Documentation" "Testing & Documentation" = true
  ∧ contains "Core Package" "Testing & Documentation" = false
  ∧ contains "Extension Package" "Testing & Documentation" = false
  ∧ ∃ labels,
      get_labels "US-031" (meta_dict (Meta None None (Some "Testing & Documentation")))
      = Ok labels
      ∧ category_tokens labels = ["testing"]
      ∧ ("documentation" ∉ labels).
Proof.
  do 4 (split; [reflexivity|]).
  destruct (get_labels_category "US-031"
              (Meta None None (Some "Testing & Documentation")))
    as (labels & Hlabels & _ & Hboth).
  destruct (Hboth eq_refl eq_refl) as [Hdoc Htesting].
  exists labels. split; [exact Hlabels|]. split; [|exact Hdoc].
  exact (Htesting eq_refl eq_refl).
Defined.

Lemma generate_issue_body_blocks_witness :
  Forall (present full_sections) section_order
  ∧ generate_issue_body full_sections = body_spec full_sections
  ∧ body_parts full_sections = block full_sections <$> section_order
  ∧ length (body_parts full_sections) = 9%nat.
Proof.
  assert (Forall (present full_sections) section_order) as Hall.
  { apply (bool_decide_unpack _). vm_compute. reflexivity. }
  split; [exact Hall|].
  destruct (generate_issue_body_blocks full_sections) as [Hbody Hnine].
  split; [exact Hbody|]. exact (Hnine Hall).
Defined.

(** The body of the full record: nine blocks, a blank line between two *)
Example generate_issue_body_full :
  generate_issue_body full_sections
  = "## Description" +:+ NL +:+ NL +:+ "As a developer" +:+ NL +:+ NL
    +:+ "## Acceptance Criteria" +:+ NL +:+ NL +:+ "- [ ] bounded" +:+ NL +:+ NL
    +:+ "## Technical Requirements" +:+ NL +:+ NL +:+ "A queue" +:+ NL +:+ NL
    +:+ "## Testing Requirements" +:+ NL +:+ NL +:+ "Unit tests" +:+ NL +:+ NL
    +:+ "## Performance Requirements" +:+ NL +:+ NL +:+ "Fast" +:+ NL +:+ NL
    +:+ "## Dependencies" +:+ NL +:+ NL +:+ "US-001" +:+ NL +:+ NL
    +:+ "## Definition of Done" +:+ NL +:+ NL +:+ "Merged" +:+ NL +:+ NL
    +:+ "## Notes" +:+ NL +:+ NL +:+ "None yet" +:+ NL +:+ NL
    +:+ "## Related Documentation" +:+ NL +:+ NL +:+ "README".
Proof. by vm_compute. Qed.

(** The parser on the sample story *)
Example parse_sample_story :
  let sections := parse_content (sample_dir // "US-004-bounded-queue.md") sample_story in
  sections !! "story_id" = Some "US-004"
  ∧ sections !! "title" = Some "Bounded Queue"
  ∧ sections !! "status" = Some "done"
  ∧ sections !! "category" = Some "Unknown"
  ∧ sections !! "description"
    = Some ("As a dev" +:+ NL +:+ "### sub" +:+ NL +:+ "text")
  ∧ sections !! "notes" = Some "n1"
  ∧ sections !! "dependencies" = Some ""
  ∧ generate_issue_body sections
    = "## Description" +:+ NL +:+ NL +:+ "As a dev" +:+ NL +:+ "### sub" +:+ NL
        +:+ "text" +:+ NL +:+ NL +:+ "## Notes" +:+ NL +:+ NL +:+ "n1".
Proof. repeat split; by vm_compute. Qed.

(** A heading at the very end of the text, with no line after it, starts no
    section; a section pattern is not tied to the start of a line. *)
Example section_pattern_corners :
  re_search (Lit "## Notes" ⋅ section_rest) "## Notes" = None
  ∧ section_value
      ("### Notes" +:+ NL +:+ "## Description" +:+ NL +:+ "foo" +:+ NL +:+ "## X")
      (Lit "## Notes" ⋅ section_rest)
    = "## Description" +:+ NL +:+ "foo".
Proof. split; by vm_compute. Qed.

(** The title is read from the text alone: the identifier in the heading is
    not compared with the one in the file name. *)
Remark title_independent_of_file_name filepath filepath' content :
  parse_content filepath content !! "title"
  = parse_content filepath' content !! "title".
Proof. by rewrite !parse_content_title. Qed.

(** A run on the sample installation: two stories, in the order of their
    names, and a normal exit. *)
Example main_sample_world :
  (main sample_world).2 = Done tt
  ∧ files_read (main sample_world).1
    = [sample_dir // "US-001-core-package-setup.md";
       sample_dir // "US-004-bounded-queue.md"]
  ∧ "Labels: user-story, status:complete, sp-8, sprint-2, core-package, priority:p0"
    ∈ printed (main sample_world).1.
Proof.
  split; [by vm_compute|]. split; [by vm_compute|].
  apply (bool_decide_unpack _). by vm_compute.
Qed.

(** ** More on the label deriver *)

Lemma get_labels_stages story_id (md : gmap string PyVal) :
  get_labels story_id md
  = (labels <- category_stage
                 (early_labels story_id (dict_get md "sp") (dict_get md "sprint"))
                 (dict_get_or md "category" (PyStr "")) ;;
     priority_stage labels (dict_get md "sprint")).
Proof. reflexivity. Qed.

Lemma category_stage_str labels c :
  category_stage labels (PyStr c) = Ok (labels ++ category_label c).
Proof.
  unfold category_stage, category_label. simpl.
  destruct (contains "Core Package" c); [done|].
  destruct (contains "Extension Package" c); [done|].
  destruct (contains "Testing" c); simpl; [done|].
  destruct (contains "Samples" c); simpl; [done|].
  destruct (contains "Documentation" c); simpl; [done|].
  by rewrite app_nil_r.
Qed.

Lemma category_stage_error labels v :
  (∀ c, v ≠ PyStr c) → category_stage labels v = TypeError.
Proof. destruct v as [| |c]; [done|done|]. intros H. by destruct (H c). Qed.

Lemma priority_stage_error labels s :
  s ≠ "" → priority_stage labels (PyStr s) = TypeError.
Proof.
  intros Hs. unfold priority_stage, sprint_at_most. simpl.
  by destruct (String.eqb_spec s "").
Qed.

Lemma priority_stage_ok labels sprint :
  (∀ s, sprint = PyStr s → s = "") →
  priority_stage labels sprint = Ok (labels ++ [priority_of sprint]).
Proof.
  intros Hs. unfold priority_stage, sprint_at_most, priority_of, priority_label.
  destruct sprint as [|n|s]; simpl; [done| |by rewrite (Hs s eq_refl)].
  destruct (n =? 0); simpl; [done|].
  destruct (n <=? 2) eqn:H2; simpl; [done|].
  destruct (n <=? 4) eqn:H4; simpl; [done|].
  by destruct (n <=? 8).
Qed.

(** The result on any dictionary whose category can be searched and whose
    sprint can be compared *)
Lemma get_labels_ok story_id (md : gmap string PyVal) c :
  dict_get_or md "category" (PyStr "") = PyStr c →
  (∀ s, dict_get md "sprint" = PyStr s → s = "") →
  get_labels story_id md
  = Ok (early_labels story_id (dict_get md "sp") (dict_get md "sprint")
          ++ category_label c ++ [priority_of (dict_get md "sprint")]).
Proof.
  intros Hc Hs. rewrite get_labels_stages, Hc, category_stage_str. simpl.
  rewrite priority_stage_ok by done. by rewrite <- (assoc_L (++)).
Qed.


(** X2. The label deriver reads the keys "sp", "sprint" and "category" and
    no other: two dictionaries that agree on the three give the same
    result. *)
Theorem get_labels_three_keys story_id (md md' : gmap string PyVal) :
  md !! "sp" = md' !! "sp" →
  md !! "sprint" = md' !! "sprint" →
  md !! "category" = md' !! "category" →
  get_labels story_id md = get_labels story_id md'.
Proof.
  intros Hsp Hsprint Hcategory. rewrite !get_labels_stages.
  unfold dict_get, dict_get_or. by rewrite Hsp, Hsprint, Hcategory.
Qed.

Lemma get_labels_three_keys_witness :
  get_labels "US-004" (<["owner" := PyStr "team"]> (entry 2 8 "Core Package"))
  = get_labels "US-004" (entry 2 8 "Core Package").
Proof.
  apply (get_labels_three_keys "US-004"
           (<["owner" := PyStr "team"]> (entry 2 8 "Core Package"))
           (entry 2 8 "Core Package")); reflexivity.
Defined.

(** X3. A story-point count or a sprint of zero is treated as a missing
    one: no label for it, and the lowest priority for a zero sprint. *)
Theorem get_labels_zero_is_missing story_id sprint sp category :
  get_labels story_id (meta_dict (Meta sprint (Some 0) category))
  = get_labels story_id (meta_dict (Meta sprint None category))
  ∧ get_labels story_id (meta_dict (Meta (Some 0) sp category))
    = get_labels story_id (meta_dict (Meta None sp category))
  ∧ ∃ labels,
      get_labels story_id (meta_dict (Meta (Some 0) sp category)) = Ok labels
      ∧ priority_tokens labels = ["priority:p3"]
      ∧ filter (λ l, starts_with "sprint-" l = true) labels = [].
Proof.
  rewrite !get_labels_meta. split; [done|]. split; [done|].
  exists (labels_of story_id (Meta (Some 0) sp category)). split; [done|].
  split; [by rewrite priority_tokens_labels_of|].
  rewrite filter_labels_of. cbn [meta_sprint meta_sp meta_category].
  change (number_label "sprint-" (Some 0)) with (@nil string).
  change (priority_label (Some 0)) with "priority:p3".
  change (@nil string) with (@nil string ++ [] ++ [] ++ [] ++ []) at 2.
  repeat apply (f_equal2 app); by_cases.
Qed.

(** X4. The priority ladder on every integer sprint: a non-zero sprint up
    to 2, negative ones included, gives p0; 3 and 4 give p1; 5 to 8 give
    p2; zero and every sprint from 9 on give p3. *)
Theorem get_labels_priority_ladder story_id n sp category :
  ∃ labels token,
    get_labels story_id (meta_dict (Meta (Some n) sp category)) = Ok labels
    ∧ priority_tokens labels = [token]
    ∧ (n ≠ 0 ∧ n ≤ 2 → token = "priority:p0")
    ∧ (3 ≤ n ≤ 4 → token = "priority:p1")
    ∧ (5 ≤ n ≤ 8 → token = "priority:p2")
    ∧ (n = 0 ∨ 9 ≤ n → token = "priority:p3").
Proof.
  exists (labels_of story_id (Meta (Some n) sp category)),
    (priority_label (Some n)).
  split; [apply get_labels_meta|]. split; [apply priority_tokens_labels_of|].
  unfold priority_label.
  destruct (Z.eqb_spec n 0), (Z.leb_spec n 2), (Z.leb_spec n 4), (Z.leb_spec n 8);
    repeat split; intros; (done || lia).
Qed.

Lemma get_labels_priority_ladder_witness :
  (-1) ≠ 0 ∧ (-1) ≤ 2
  ∧ ∃ labels,
      get_labels "US-031" (meta_dict (Meta (Some (-1)) None None)) = Ok labels
      ∧ priority_tokens labels = ["priority:p0"].
Proof.
  split; [lia|]. split; [lia|].
  destruct (get_labels_priority_ladder "US-031" (-1) None None)
    as (labels & token & Hlabels & Htokens & Hp0 & _).
  exists labels. split; [exact Hlabels|].
  rewrite Htokens. f_equal. apply Hp0. split; lia.
Defined.

(** X5. The labels come in the order of their kinds: the base marker, the
    status, the story points, the sprint, the category, the priority. *)
Theorem get_labels_order story_id m :
  ∃ labels,
    get_labels story_id (meta_dict m) = Ok labels
    ∧ StronglySorted lt (label_rank <$> labels).
Proof.
  exists (labels_of story_id m). split; [apply get_labels_meta|].
  destruct (rank_labels_of story_id m) as (a & b & c & ->).
  destruct a, b, c; simpl; repeat constructor; lia.
Qed.

(** X6. Every story of the metadata table gets six labels, one of them a
    category token: no entry has a zero or missing field, and every
    category of the table is routed. *)
Theorem get_labels_table story_id md :
  STORY_METADATA !! story_id = Some md →
  ∃ labels,
    get_labels story_id md = Ok labels
    ∧ length labels = 6%nat
    ∧ length (category_tokens labels) = 1%nat.
Proof.
  intros Hmd. apply elem_of_list_to_map_2 in Hmd.
  repeat (apply elem_of_cons in Hmd as [[= -> ->]|Hmd];
          [eexists; split; [by vm_compute|by vm_compute]|]).
  by apply elem_of_nil in Hmd.
Qed.

Lemma get_labels_table_witness :
  STORY_METADATA !! "US-026" = Some (entry 9 30 "Testing & Samples")
  ∧ ∃ labels,
      get_labels "US-026" (entry 9 30 "Testing & Samples") = Ok labels
      ∧ length labels = 6%nat
      ∧ length (category_tokens labels) = 1%nat.
Proof.
  split; [reflexivity|].
  apply (get_labels_table "US-026"). reflexivity.
Defined.

(** ** More on the body assembly *)

Lemma join_cons sep x parts :
  join sep (x :: parts)
  = match parts with [] => x | _ :: _ => x +:+ sep +:+ join sep parts end.
Proof. by destruct parts. Qed.

Lemma starts_with_app p s : starts_with p (p +:+ s) = true.
Proof.
  induction p as [|a p IH]; [done|]. rewrite app_cons. simpl.
  by rewrite Ascii.eqb_refl.
Qed.

Lemma starts_with_assoc p s1 s2 :
  starts_with p s1 = true → starts_with p (s1 +:+ s2) = true.
Proof.
  revert s1. induction p as [|a p IH]; intros s1; [done|].
  destruct s1 as [|b s1]; [done|]. rewrite app_cons. simpl.
  intros [-> H]%andb_true_iff. by rewrite IH.
Qed.

Lemma join_blocks_starts sections sep e es :
  starts_with "## " (join sep (block sections <$> (e :: es))) = true.
Proof.
  rewrite fmap_cons, join_cons.
  destruct (block sections <$> es); [done|]. by apply starts_with_assoc.
Qed.

Lemma filter_nil_Forall {A} (P : A → Prop) `{∀ x, Decision (P x)} (l : list A) :
  filter P l = [] ↔ Forall (λ x, ¬ P x) l.
Proof.
  induction l as [|x l IH]; [by split; [constructor|]|].
  rewrite filter_cons, Forall_cons. case_decide as Hx.
  - split; [done|]. by intros [? _].
  - rewrite IH. split; [by split|by intros [_ ?]].
Qed.

(** X7. The body is empty exactly when none of the nine sections is
    present; otherwise it starts with a heading. *)
Theorem generate_issue_body_empty sections :
  (generate_issue_body sections = ""
   ↔ Forall (λ e, ¬ present sections e) section_order)
  ∧ (generate_issue_body sections ≠ "" →
     starts_with "## " (generate_issue_body sections) = true).
Proof.
  unfold generate_issue_body. rewrite body_parts_spec.
  pose proof (filter_nil_Forall (present sections) section_order) as Hiff.
  destruct (filter (present sections) section_order) as [|e es].
  - split; [|by intros []]. split; [intros _; by apply Hiff|done].
  - pose proof (join_blocks_starts sections (NL +:+ NL) e es) as Hs.
    split; [|by intros _]. split.
    + intros Hempty. by rewrite Hempty in Hs.
    + intros Hnone. by apply Hiff in Hnone.
Qed.

Lemma generate_issue_body_empty_witness :
  generate_issue_body full_sections ≠ ""
  ∧ starts_with "## " (generate_issue_body full_sections) = true.
Proof.
  assert (generate_issue_body full_sections ≠ "") as Hne by (by vm_compute).
  split; [exact Hne|].
  exact (proj2 (generate_issue_body_empty full_sections) Hne).
Defined.

Lemma blocks_agree (sections sections' : gmap string string)
    (order : list (string * string)) :
  (∀ e, e ∈ order → section_text sections e.1 = section_text sections' e.1) →
  block sections <$> filter (present sections) order
  = block sections' <$> filter (present sections') order.
Proof.
  induction order as [|e order IH]; intros Hagree; [done|].
  assert (section_text sections e.1 = section_text sections' e.1) as Htext
    by apply Hagree, list_elem_of_here.
  specialize (IH (λ e' He', Hagree e' (list_elem_of_further _ _ _ He'))).
  rewrite !filter_cons.
  destruct (decide (present sections e)) as [Hp|Hp],
    (decide (present sections' e)) as [Hp'|Hp'];
    unfold present in Hp, Hp'; rewrite Htext in Hp; try done.
  rewrite !fmap_cons, IH. unfold block. by rewrite Htext.
Qed.

(** X8. The body is made from the nine section fields alone: records that
    agree on them have the same body, whatever their title, status or
    other fields. *)
Theorem generate_issue_body_fields (sections sections' : gmap string string) :
  (∀ e, e ∈ section_order → sections !! e.1 = sections' !! e.1) →
  generate_issue_body sections = generate_issue_body sections'.
Proof.
  intros Hagree. unfold generate_issue_body.
  rewrite !body_parts_spec, (blocks_agree sections sections'); [done|].
  intros e He. unfold section_text. by rewrite (Hagree e He).
Qed.

Lemma generate_issue_body_fields_witness :
  generate_issue_body (<["title" := "Another title"]> full_sections)
  = generate_issue_body full_sections.
Proof.
  apply generate_issue_body_fields.
  intros e He. apply lookup_insert_ne.
  revert e He. apply Forall_forall. by repeat constructor.
Defined.

(** ** The order of the stories *)

Lemma insert_sorted_perm p l : insert_sorted p l ≡ₚ p :: l.
Proof.
  induction l as [|q l IH]; simpl; [done|].
  destruct (path_leb q p); [|done]. by rewrite IH, Permutation_swap.
Qed.

Lemma sorted_perm paths : sorted paths ≡ₚ paths.
Proof.
  unfold sorted. rewrite <- (reverse_Permutation paths) at 2.
  induction (reverse paths) as [|p l IH]; simpl; [done|].
  by rewrite insert_sorted_perm, IH.
Qed.

Lemma parts_leb_total ps qs : parts_leb ps qs = false → parts_leb qs ps = true.
Proof.
  revert qs. induction ps as [|p ps IH]; intros [|q qs]; simpl; try done.
  rewrite (String.compare_antisym p q).
  destruct (String.compare q p); simpl; try done. apply IH.
Qed.

Lemma insert_sorted_sorted p l :
  Sorted (λ a b, path_leb a b = true) l →
  Sorted (λ a b, path_leb a b = true) (insert_sorted p l).
Proof.
  induction 1 as [|q l Hl IH Hq]; simpl; [by repeat constructor|].
  destruct (path_leb q p) eqn:Hqp.
  - constructor; [done|].
    destruct l as [|r l]; simpl in *; [by constructor|].
    destruct (path_leb r p); constructor; [by inversion Hq|done].
  - constructor; [by constructor|]. constructor. by apply parts_leb_total.
Qed.

Lemma sorted_sorted paths : Sorted (λ a b, path_leb a b = true) (sorted paths).
Proof.
  unfold sorted. induction (reverse paths) as [|p l IH]; simpl; [constructor|].
  by apply insert_sorted_sorted.
Qed.

(** ** Runs of the driver *)

Lemma parse_content_story_id filepath content :
  parse_content filepath content !! "story_id"
  = Some (join "-" (take 2 (split "-"%char (path_stem filepath)))).
Proof.
  unfold parse_content. rewrite foldl_extract_other.
  - by rewrite !lookup_insert_ne, lookup_insert_eq by done.
  - apply (bool_decide_unpack _). by vm_compute.
Qed.

Lemma get_labels_table_ok story_id :
  ∃ labels,
    get_labels story_id (default ∅ (STORY_METADATA !! story_id)) = Ok labels.
Proof.
  destruct (story_metadata_shape story_id) as [m ->].
  rewrite get_labels_meta. eauto.
Qed.

Lemma files_read_prints lines : files_read (EPrint <$> lines) = [].
Proof. unfold files_read. induction lines as [|l lines IH]; [done|]. simpl. apply IH. Qed.

Lemma files_read_app t1 t2 : files_read (t1 ++ t2) = files_read t1 ++ files_read t2.
Proof. apply omap_app. Qed.

Lemma report_story_run w story_file content :
  file_text w story_file = Some content →
  ∃ lines,
    report_story story_file w = (ERead story_file :: (EPrint <$> lines), Done tt)
    ∧ length lines = 8%nat.
Proof.
  intros Hfile. unfold report_story, parse_markdown_file, read_text, io_bind at 1 2.
  rewrite Hfile. cbn [io_ret app].
  unfold index at 1, io_bind at 1. rewrite parse_content_story_id. cbn [io_ret app].
  unfold index at 1, io_bind at 1. rewrite parse_content_title. cbn [io_ret app].
  set (story_id := join "-" _).
  destruct (get_labels_table_ok story_id) as [labels Hlabels].
  unfold io_bind at 1. rewrite Hlabels. cbn [lift io_ret app].
  eexists [_; _; _; _; _; _; _; _]. split; [reflexivity|done].
Qed.

Lemma for_each_reports w story_files :
  (∀ f, f ∈ story_files → is_Some (file_text w f)) →
  ∃ t,
    for_each story_files report_story w = (t, Done tt)
    ∧ files_read t = story_files
    ∧ length (printed t) = (8 * length story_files)%nat.
Proof.
  induction story_files as [|f story_files IH]; intros Hfiles.
  - by exists [].
  - destruct (Hfiles f) as [content Hcontent]; [apply list_elem_of_here|].
    destruct (report_story_run w f content Hcontent) as (lines & Hrun & Hlen).
    destruct IH as (t & Hloop & Hread & Hprinted).
    { intros f' Hf'. apply Hfiles. by apply list_elem_of_further. }
    exists ((ERead f :: (EPrint <$> lines)) ++ t).
    cbn [for_each]. unfold io_bind. rewrite Hrun, Hloop.
    split; [done|]. split.
    + rewrite files_read_app. cbn. by rewrite files_read_prints, Hread.
    + unfold printed in *. rewrite omap_app, length_app, Hprinted. cbn.
      assert (omap (λ e, match e with EPrint text => Some text | _ => None end)
                (EPrint <$> lines) = lines) as ->.
      { clear. induction lines as [|l lines IH]; [done|]. cbn. by rewrite IH. }
      lia.
Qed.

Lemma file_text_Some w f : f ∈ (files w).*1 → is_Some (file_text w f).
Proof.
  intros (entry & -> & Hentry)%list_elem_of_fmap. unfold file_text.
  destruct (list_find_elem_of (λ e, e.1 = entry.1) (files w) entry Hentry eq_refl)
    as [found ->].
  by eexists.
Qed.

Lemma story_files_readable w f :
  f ∈ sorted (story_files w) → is_Some (file_text w f).
Proof.
  rewrite sorted_perm. unfold story_files.
  intros [_ Hf]%list_elem_of_filter. by apply file_text_Some.
Qed.

Lemma create_issues_dry_run dir repo_name :
  create_issues_from_directory dir repo_name true
  = (found <<- glob_stories dir ;;
     let story_files := sorted found in
     print ("Found " +:+ pretty (Z.of_nat (length story_files))
              +:+ " user story files" +:+ NL) >>
     for_each story_files report_story).
Proof. reflexivity. Qed.

Lemma create_issues_dry_run_trace w repo_name :
  ∃ t,
    create_issues_from_directory (user_stories_dir w) repo_name true w
    = (EGlob (user_stories_dir w)
         :: EPrint ("Found " +:+ pretty (Z.of_nat (length (sorted (story_files w))))
                      +:+ " user story files" +:+ NL)
         :: t,
       Done tt)
    ∧ files_read t = sorted (story_files w)
    ∧ length (printed t) = (8 * length (story_files w))%nat.
Proof.
  destruct (for_each_reports w (sorted (story_files w)) (story_files_readable w))
    as (t & Hloop & Hread & Hprinted).
  exists t. split; [|split; [done|]].
  - rewrite create_issues_dry_run. unfold io_bind, glob_stories, print.
    fold (story_files w). by rewrite Hloop.
  - by rewrite Hprinted, (Permutation_length (sorted_perm _)).
Qed.

Lemma main_dry_run_trace w :
  has_stories_dir w = true →
  "--no-dry-run" ∉ argv w →
  ∃ t,
    main w
    = ([EExists (user_stories_dir w);
        EPrint rule;
        EPrint "DRY RUN MODE - No issues will be created";
        EPrint "Run with --no-dry-run to actually create issues";
        EPrint rule;
        EPrint "";
        EGlob (user_stories_dir w);
        EPrint ("Found " +:+ pretty (Z.of_nat (length (sorted (story_files w))))
                  +:+ " user story files" +:+ NL)]
         ++ t ++ summary w,
       Done tt)
    ∧ files_read t = sorted (story_files w)
    ∧ length (printed t) = (8 * length (story_files w))%nat.
Proof.
  intros Hdir Hargs.
  destruct (create_issues_dry_run_trace w "RoySalisbury/HVO.Enterprise")
    as (t & Hrun & Hread & Hprinted).
  exists t. split; [|done].
  unfold main, io_bind, get_script_file, path_exists, get_argv, print, io_ret.
  fold (user_stories_dir w). fold (has_stories_dir w). rewrite Hdir.
  rewrite bool_decide_false by done. cbn [negb app].
  rewrite Hrun. unfold glob_stories. fold (story_files w). reflexivity.
Qed.


Lemma main_live_trace w :
  has_stories_dir w = true →
  "--no-dry-run" ∈ argv w →
  main w
  = ([EExists (user_stories_dir w);
      EPrint "ERROR: GitHub API integration not yet enabled";
      EPrint "To enable:";
      EPrint "1. Uncomment the PyGithub import at the top";
      EPrint "2. Uncomment the GitHub API code below";
      EPrint "3. Set GITHUB_TOKEN environment variable";
      EPrint "4. Run with --no-dry-run flag"]
       ++ summary w,
     Done tt).
Proof.
  intros Hdir Hargs.
  unfold main, io_bind, get_script_file, path_exists, get_argv, print, io_ret.
  fold (user_stories_dir w). fold (has_stories_dir w). rewrite Hdir.
  rewrite bool_decide_true by done. reflexivity.
Qed.

Lemma main_missing_trace w :
  has_stories_dir w = false →
  main w
  = ([EExists (user_stories_dir w);
      EPrint ("ERROR: User stories directory not found: "
                +:+ path_str (user_stories_dir w))],
     Exited 1).
Proof.
  intros Hdir.
  unfold main, io_bind, get_script_file, path_exists, get_argv, print, io_ret.
  fold (user_stories_dir w). fold (has_stories_dir w). by rewrite Hdir.
Qed.

(** X10. With [--no-dry-run] on the command line and the directory there,
    the run reads no story file and creates nothing: it prints the six
    lines that say the integration is not enabled, then the summary, and
    ends normally. *)
Theorem main_no_dry_run w :
  has_stories_dir w = true →
  "--no-dry-run" ∈ argv w →
  (main w).2 = Done tt
  ∧ files_read (main w).1 = []
  ∧ take 6 (printed (main w).1)
    = ["ERROR: GitHub API integration not yet enabled";
       "To enable:";
       "1. Uncomment the PyGithub import at the top";
       "2. Uncomment the GitHub API code below";
       "3. Set GITHUB_TOKEN environment variable";
       "4. Run with --no-dry-run flag"]
  ∧ length (printed (main w).1) = 12%nat.
Proof.
  intros Hdir Hargs. rewrite (main_live_trace w Hdir Hargs).
  repeat split; reflexivity.
Qed.



(** ** File names and story identifiers *)

Lemma fnmatch_star_nil pattern :
  fnmatch (String "*" pattern) "" = fnmatch pattern "".
Proof. cbn. apply orb_false_r. Qed.

Lemma fnmatch_star_cons pattern a name :
  fnmatch (String "*" pattern) (String a name)
  = fnmatch pattern (String a name) || fnmatch (String "*" pattern) name.
Proof. reflexivity. Qed.

Lemma fnmatch_star pattern name :
  fnmatch (String "*" pattern) name = true
  ↔ ∃ skipped rest, name = skipped +:+ rest ∧ fnmatch pattern rest = true.
Proof.
  induction name as [|a name IH].
  - rewrite fnmatch_star_nil. split.
    + intros H. by exists "", "".
    + intros (skipped & rest & Hname & H). by destruct skipped, rest.
  - rewrite fnmatch_star_cons, orb_true_iff, IH. split.
    + intros [H|(skipped & rest & -> & H)].
      * by exists "", (String a name).
      * by exists (String a skipped), rest.
    + intros (skipped & rest & Hname & H). destruct skipped as [|b skipped].
      * left. rewrite app_empty in Hname. by subst.
      * right. rewrite app_cons in Hname. injection Hname as -> ->. eauto.
Qed.

Lemma fnmatch_cons a pattern name :
  a ≠ "*"%char →
  fnmatch (String a pattern) name
  = match name with
    | "" => false
    | String b name' => Ascii.eqb a b && fnmatch pattern name'
    end.
Proof.
  intros Ha. cbn [fnmatch].
  by destruct (Ascii.eqb_spec a "*").
Qed.

Lemma fnmatch_md rest : fnmatch ".md" rest = true ↔ rest = ".md".
Proof.
  split; [|by intros ->].
  rewrite fnmatch_cons by done. destruct rest as [|a rest]; [done|].
  rewrite andb_true_iff, Ascii.eqb_eq, fnmatch_cons by done. intros [<- H].
  destruct rest as [|b rest]; [done|].
  rewrite andb_true_iff, Ascii.eqb_eq, fnmatch_cons in H by done.
  destruct H as [<- H]. destruct rest as [|c rest]; [done|].
  rewrite andb_true_iff, Ascii.eqb_eq in H. destruct H as [<- H].
  by destruct rest.
Qed.

(** The pattern [US-*.md] fits exactly the names that start with "US-" and
    end with ".md", the two not overlapping. *)
Lemma fnmatch_US_md name :
  fnmatch "US-*.md" name = true ↔ ∃ middle, name = "US-" +:+ middle +:+ ".md".
Proof.
  split.
  - rewrite fnmatch_cons by done. destruct name as [|a name]; [done|].
    rewrite andb_true_iff, Ascii.eqb_eq, fnmatch_cons by done. intros [<- H].
    destruct name as [|b name]; [done|].
    rewrite andb_true_iff, Ascii.eqb_eq, fnmatch_cons in H by done.
    destruct H as [<- H]. destruct name as [|c name]; [done|].
    rewrite andb_true_iff, Ascii.eqb_eq in H. destruct H as [<- H].
    apply fnmatch_star in H as (skipped & rest & -> & ->%fnmatch_md).
    by exists skipped.
  - intros [middle ->].
    change (fnmatch (String "*" ".md") (middle +:+ ".md") = true).
    apply fnmatch_star. exists middle, ".md". split; [done|]. by apply fnmatch_md.
Qed.

Lemma rfind_dot_md x : rfind_dot (x +:+ ".md") = Some (String.length x).
Proof.
  induction x as [|a x IH]; [done|]. rewrite app_cons. cbn [rfind_dot].
  by rewrite IH.
Qed.

Lemma path_stem_md f x :
  path_name f = x +:+ ".md" → x ≠ "" → path_stem f = x.
Proof.
  intros Hname Hx. unfold path_stem. rewrite Hname, rfind_dot_md.
  rewrite string_length_app. cbn [String.length].
  destruct x as [|a x]; [done|]. cbn [String.length].
  replace (0 <? S (String.length x))%nat with true by (symmetry; by apply Nat.ltb_lt; lia).
  replace (S (String.length x) <? S (String.length x) + 3 - 1)%nat with true
    by (symmetry; apply Nat.ltb_lt; lia).
  cbn [andb]. apply (substring_app_l (String a x) ".md").
Qed.

Lemma split_head number rest :
  contains "-" number = false →
  rest = "" ∨ starts_with "-" rest = true →
  ∃ pieces, split "-" (number +:+ rest) = number :: pieces.
Proof.
  intros Hnumber Hrest. induction number as [|a number IH].
  - rewrite app_empty. destruct Hrest as [->|Hrest]; [by exists []|].
    destruct rest as [|b rest]; [done|]. cbn [starts_with] in Hrest.
    apply andb_true_iff in Hrest as [Hb _]. cbn [split].
    rewrite Ascii.eqb_sym in Hb. rewrite Hb. eauto.
  - rewrite app_cons. cbn [split]. cbn [contains starts_with] in Hnumber.
    apply orb_false_iff in Hnumber as [Ha Hnumber].
    rewrite andb_true_r, Ascii.eqb_sym in Ha. rewrite Ha.
    destruct (IH Hnumber) as [pieces ->]. eauto.
Qed.

Lemma split_US s : split "-" ("US-" +:+ s) = "US" :: split "-" s.
Proof.
  change ("US-" +:+ s) with (String "U" (String "S" (String "-" s))).
  cbn [split]. change (Ascii.eqb "U" "-") with false.
  change (Ascii.eqb "S" "-") with false. by rewrite Ascii.eqb_refl.
Qed.

Lemma story_id_from_name filepath number rest content :
  path_name filepath = "US-" +:+ number +:+ rest +:+ ".md" →
  contains "-" number = false →
  rest = "" ∨ starts_with "-" rest = true →
  parse_content filepath content !! "story_id" = Some ("US-" +:+ number).
Proof.
  intros Hname Hnumber Hrest. rewrite parse_content_story_id.
  rewrite (path_stem_md filepath ("US-" +:+ number +:+ rest)).
  - rewrite split_US. destruct (split_head number rest Hnumber Hrest) as [pieces ->].
    done.
  - by rewrite Hname, !app_assoc.
  - done.
Qed.

(** X14. The story identifier is read from the file name: for a story file
    named "US-", a first part without dash, possibly more parts each after
    a dash, and ".md", it is "US-" and the first part; the document is not
    consulted. *)
Theorem story_id_of_file_name filepath number rest content :
  path_name filepath = "US-" +:+ number +:+ rest +:+ ".md" →
  contains "-" number = false →
  rest = "" ∨ starts_with "-" rest = true →
  parse_content filepath content !! "story_id" = Some ("US-" +:+ number).
Proof. apply story_id_from_name. Qed.

Lemma story_id_of_file_name_witness :
  parse_content (sample_dir // "US-004-bounded-queue.md") sample_story !! "story_id"
  = Some "US-004".
Proof.
  apply (story_id_of_file_name (sample_dir // "US-004-bounded-queue.md")
           "004" "-bounded-queue" sample_story).
  - reflexivity.
  - reflexivity.
  - right. reflexivity.
Defined.

Lemma first_part s :
  ∃ number rest,
    s = number +:+ rest
    ∧ contains "-" number = false
    ∧ (rest = "" ∨ starts_with "-" rest = true).
Proof.
  induction s as [|a s (number & rest & -> & Hnumber & Hrest)].
  - exists "", "". split; [done|]. split; [done|]. by left.
  - destruct (Ascii.eqb_spec "-" a) as [<-|Ha].
    + exists "", (String "-" (number +:+ rest)).
      split; [done|]. split; [done|]. by right.
    + exists (String a number), rest.
      split; [done|]. split; [|done]. cbn [contains starts_with].
      apply Ascii.eqb_neq in Ha. by rewrite Ha, Hnumber.
Qed.


(** X15. Every story file the search finds yields an identifier of the form
    "US-" followed by a text without dash, whatever the text of the file. *)
Theorem story_files_story_id w story_file content :
  story_file ∈ story_files w →
  ∃ number,
    parse_content story_file content !! "story_id" = Some ("US-" +:+ number)
    ∧ contains "-" number = false.
Proof.
  unfold story_files.
  intros [[_ (middle & Hname)%fnmatch_US_md] _]%list_elem_of_filter.
  destruct (first_part middle) as (number & rest & -> & Hnumber & Hrest).
  exists number. split; [|done].
  apply (story_id_from_name _ number rest); [|done..].
  by rewrite Hname, !app_assoc.
Qed.

Lemma story_files_story_id_witness :
  sample_dir // "US-004-bounded-queue.md" ∈ story_files sample_world
  ∧ ∃ number,
      parse_content (sample_dir // "US-004-bounded-queue.md") sample_story
        !! "story_id" = Some ("US-" +:+ number)
      ∧ contains "-" number = false.
Proof.
  assert (sample_dir // "US-004-bounded-queue.md" ∈ story_files sample_world)
    as Hin.
  { apply (bool_decide_unpack _). vm_compute. reflexivity. }
  split; [exact Hin|].
  exact (story_files_story_id sample_world _ sample_story Hin).
Defined.

(** ** The header fields *)

Lemma star_greedy_succeeds {R} c (k : option ascii → string → option R) s prev :
  (∀ p, k p (drop_class c s) ≠ None) →
  ∃ p, star_greedy c prev s k = k p (drop_class c s).
Proof.
  revert prev. induction s as [|a s IH]; intros prev Hk; simpl in *; [eauto|].
  destruct (in_class c a) eqn:Ha; [|eauto].
  destruct (IH (Some a) Hk) as [p Hp]. rewrite Hp.
  destruct (k p (drop_class c s)) eqn:Hr; [eauto|]. by destruct (Hk p).
Qed.

Lemma match_field_at label prev s :
  match_at (Lit label ⋅ Group 1 (Plus CDot)) prev s
  = (λ value, [(1%nat, value)]) <$> field_at label s.
Proof.
  unfold match_at, field_at. cbn [rmatch].
  pose proof (strip_prefix_spec label prev s) as H1.
  destruct (drop_prefix label s) as [s1|]; cbn [mbind option_bind];
    [|by rewrite H1].
  destruct H1 as [p1 ->].
  destruct s1 as [|b s2]; [done|]. unfold first_line. cbn [take_class].
  destruct (in_class CDot b) eqn:Hb; [|done].
  rewrite decide_False by done.
  match goal with
  | |- context [star_greedy CDot (Some b) s2 ?k] =>
      destruct (star_greedy_succeeds CDot k s2 (Some b)) as [p2 ->]; [done|]
  end.
  pose proof (consumed_drop_class CDot (String b s2)) as Hc.
  cbn [take_class drop_class] in Hc. rewrite Hb in Hc. by rewrite Hc.
Qed.

Lemma search_field label s :
  ∀ prev,
    search_from (Lit label ⋅ Group 1 (Plus CDot)) prev s
    = (λ value, [(1%nat, value)]) <$> first_field label s.
Proof.
  induction s as [|a s IH]; intros prev; cbn [search_from first_field];
    rewrite match_field_at; destruct (field_at label _); try done.
  apply IH.
Qed.

Lemma field_search label content dflt :
  group_or 1 (re_search (Lit label ⋅ Group 1 (Plus CDot)) content) dflt
  = default dflt (first_field label content).
Proof.
  unfold re_search. rewrite search_field.
  by destruct (first_field label content).
Qed.

Lemma parse_content_header filepath content key label dflt :
  (key, (label, dflt)) ∈ header_fields →
  parse_content filepath content !! key
  = Some (default dflt (first_field label content)).
Proof.
  intros Hin. rewrite <- field_search. unfold parse_content.
  rewrite foldl_extract_other.
  - unfold header_fields in Hin.
    repeat (apply elem_of_cons in Hin as [[= -> -> ->]|Hin];
            [by rewrite ?lookup_insert_ne, lookup_insert_eq by done|]).
    by apply elem_of_nil in Hin.
  - unfold header_fields in Hin.
    repeat (apply elem_of_cons in Hin as [[= -> -> ->]|Hin];
            [apply (bool_decide_unpack _); by vm_compute|]).
    by apply elem_of_nil in Hin.
Qed.

Lemma field_at_spec label s value :
  field_at label s = Some value
  ↔ ∃ rest, s = label +:+ rest ∧ first_line rest = value ∧ value ≠ "".
Proof.
  unfold field_at. split.
  - destruct (drop_prefix label s) as [rest|] eqn:Hrest;
      cbn [mbind option_bind]; [|done].
    case_decide as Hline; [done|]. intros [= <-].
    exists rest. by apply drop_prefix_Some in Hrest.
  - intros (rest & -> & <- & Hvalue). rewrite drop_prefix_app.
    cbn [mbind option_bind]. by rewrite decide_False.
Qed.

Lemma first_field_here label s value :
  field_at label s = Some value → first_field label s = Some value.
Proof. intros H. destruct s; cbn [first_field]; by rewrite H. Qed.

Lemma first_field_skip label before s :
  (∀ b1 b2, before = b1 +:+ b2 → b2 ≠ "" → field_at label (b2 +:+ s) = None) →
  first_field label (before +:+ s) = first_field label s.
Proof.
  induction before as [|a before IH]; intros Hnone; [done|].
  rewrite app_cons. cbn [first_field]. rewrite <- app_cons.
  rewrite (Hnone "" (String a before)) by done. apply IH.
  intros b1 b2 -> Hb2. by apply (Hnone (String a b1) b2).
Qed.

Lemma first_field_None label s :
  (∀ b1 b2, s = b1 +:+ b2 → field_at label b2 = None) →
  first_field label s = None.
Proof.
  induction s as [|a s IH]; intros Hnone; cbn [first_field].
  - by rewrite (Hnone "" "").
  - rewrite (Hnone "" (String a s)) by done. apply IH.
    intros b1 b2 ->. by apply (Hnone (String a b1) b2).
Qed.

Lemma first_field_Some label s value :
  first_field label s = Some value →
  ∃ b1 b2, s = b1 +:+ b2 ∧ field_at label b2 = Some value.
Proof.
  induction s as [|a s IH]; cbn [first_field].
  - destruct (field_at label "") eqn:H; [|done]. intros [= <-]. by exists "", "".
  - destruct (field_at label (String a s)) eqn:H.
    + intros [= <-]. by exists "", (String a s).
    + intros (b1 & b2 & -> & Hb2)%IH. by exists (String a b1), b2.
Qed.

(** X16. Each header field (status, category, effort, sprint) is the rest
    of the line after the first occurrence of its label that has text
    after it on its line; when the label never occurs with such text, the
    field is its default. *)
Theorem header_field_value filepath content key label dflt :
  (key, (label, dflt)) ∈ header_fields →
  ∃ value,
    parse_content filepath content !! key = Some value
    ∧ (∀ before rest,
         content = before +:+ label +:+ rest →
         first_line rest ≠ "" →
         (∀ before' rest',
            content = before' +:+ label +:+ rest' →
            (String.length before' < String.length before)%nat →
            first_line rest' = "") →
         value = first_line rest)
    ∧ ((∀ before rest, content = before +:+ label +:+ rest → first_line rest = "") →
       value = dflt).
Proof.
  intros Hin. exists (default dflt (first_field label content)).
  split; [by apply parse_content_header|]. split.
  - intros before rest -> Hrest Hfirst.
    rewrite first_field_skip.
    + rewrite (first_field_here _ _ (first_line rest)); [done|].
      apply field_at_spec. eauto.
    + intros b1 b2 -> Hb2.
      destruct (field_at label (b2 +:+ label +:+ rest)) as [value|] eqn:Hat; [|done].
      apply field_at_spec in Hat as (rest' & Hsplit & <- & Hvalue).
      destruct Hvalue. apply (Hfirst b1).
      * by rewrite app_assoc, Hsplit.
      * rewrite string_length_app. destruct b2; [done|]. cbn. lia.
  - intros Hnone. rewrite first_field_None; [done|].
    intros b1 b2 ->.
    destruct (field_at label b2) as [value|] eqn:Hat; [|done].
    apply field_at_spec in Hat as (rest & -> & <- & Hvalue).
    destruct Hvalue. by apply (Hnone b1).
Qed.

Lemma all_in_dot_no_LF value : all_in CDot value = true → contains NL value = false.
Proof.
  unfold NL. induction value as [|a value IH]; [done|].
  cbn [all_in contains starts_with in_class].
  intros [Ha Hvalue]%andb_true_iff. rewrite (IH Hvalue), andb_true_r, orb_false_r.
  rewrite Ascii.eqb_sym. by destruct (Ascii.eqb a LF).
Qed.

Lemma title_at_line s text :
  title_at s = Some text → text ≠ "" ∧ all_in CDot text = true.
Proof.
  unfold title_at.
  destruct (drop_prefix "# " s) as [s1|]; cbn [mbind option_bind]; [|done].
  destruct (drop_prefix "US-" s1) as [s2|]; cbn [mbind option_bind]; [|done].
  case_decide; [done|].
  destruct (drop_prefix ": " _) as [s3|]; cbn [mbind option_bind]; [|done].
  case_decide; [done|]. intros [= <-]. split; [done|]. apply all_in_take.
Qed.

Lemma first_title_line starts text :
  first_title starts = Some text → text ≠ "" ∧ all_in CDot text = true.
Proof.
  induction starts as [|s starts IH]; [done|]. cbn [first_title].
  destruct (title_at s) eqn:Hat; [|done]. intros [= <-]. by apply (title_at_line s).
Qed.

(** X17. The title and the four header fields are never empty and never
    hold a line feed, whatever the document: each is one non-empty line or
    its default. *)
Theorem parse_content_one_line filepath content key :
  key ∈ ["title"; "status"; "category"; "effort"; "sprint"] →
  ∃ value,
    parse_content filepath content !! key = Some value
    ∧ value ≠ ""
    ∧ contains NL value = false.
Proof.
  intros Hkey. apply elem_of_cons in Hkey as [->|Hkey].
  - rewrite parse_content_title, title_search. eexists. split; [done|].
    destruct (first_title _) as [text|] eqn:Htitle; [|done].
    apply first_title_line in Htitle as [? ?%all_in_dot_no_LF]. done.
  - assert (∃ label dflt, (key, (label, dflt)) ∈ header_fields
                          ∧ dflt ≠ "" ∧ contains NL dflt = false)
      as (label & dflt & Hin & Hdflt & Hline).
    { assert (∀ entry, entry ∈ header_fields →
                entry.2.2 ≠ "" ∧ contains NL entry.2.2 = false) as Hdefaults.
      { apply Forall_forall. repeat constructor; by vm_compute. }
      assert (key ∈ header_fields.*1) as ([k [label dflt]] & -> & Hentry)%list_elem_of_fmap
        by done.
      exists label, dflt. split; [done|]. apply (Hdefaults _ Hentry). }
    rewrite (parse_content_header _ _ _ _ _ Hin). eexists. split; [done|].
    destruct (first_field label content) as [value|] eqn:Hvalue; [|done].
    apply first_field_Some in Hvalue as (b1 & b2 & _ & Hat).
    apply field_at_spec in Hat as (rest & _ & <- & Hne).
    split; [done|]. apply all_in_dot_no_LF, all_in_take.
Qed.

(** ** The sections *)

Lemma starts_with_drop l s :
  starts_with l s = true → ∃ s', drop_prefix l s = Some s'.
Proof.
  revert s. induction l as [|a l IH]; intros s; simpl; [eauto|].
  destruct s as [|b s]; [done|]. intros [-> H]%andb_true_iff. by apply IH.
Qed.

Lemma strip_prefix_bool l prev s :
  match strip_prefix l prev s with Some _ => true | None => false end
  = starts_with l s.
Proof.
  destruct (starts_with l s) eqn:Hs.
  - apply starts_with_drop in Hs as [s' Hs'].
    pose proof (strip_prefix_spec l prev s) as H. rewrite Hs' in H.
    by destruct H as [p ->].
  - by rewrite strip_prefix_starts.
Qed.

Lemma until_from_heading s : until_heading s +:+ from_heading s = s.
Proof.
  induction s as [|a s IH]; cbn [until_heading from_heading].
  - by destruct (starts_with heading_mark "").
  - destruct (starts_with heading_mark (String a s)); [done|].
    by rewrite app_cons, IH.
Qed.

Lemma star_lazy_first {R} (k : option ascii → string → option R)
    (f : string → R) s :
  (∀ p s',
     k p s' = if starts_with heading_mark s' || bool_decide (s' = "")
              then Some (f s') else None) →
  ∀ prev, star_lazy CAny prev s k = Some (f (from_heading s)).
Proof.
  intros Hk. induction s as [|a s IH]; intros prev;
    cbn [star_lazy from_heading]; rewrite Hk.
  - rewrite bool_decide_true, orb_true_r by done.
    by destruct (starts_with heading_mark "").
  - rewrite bool_decide_false, orb_false_r by done.
    destruct (starts_with heading_mark (String a s)); [done|]. apply IH.
Qed.

Lemma star_greedy_space {R} (k : option ascii → string → option R)
    (g : string → R) s :
  (∀ p s',
     k p s' = match s' with
              | String a s'' => if Ascii.eqb a LF then Some (g s'') else None
              | EmptyString => None
              end) →
  ∀ prev, star_greedy CSpace prev s k = g <$> after_last_nl s.
Proof.
  intros Hk. induction s as [|a s IH]; intros prev;
    cbn [star_greedy after_last_nl in_class]; [by rewrite Hk|].
  destruct (is_space a) eqn:Ha.
  - rewrite IH. destruct (after_last_nl s); [done|]. cbn. rewrite Hk.
    by destruct (Ascii.eqb a LF).
  - rewrite Hk. destruct (Ascii.eqb_spec a LF) as [->|]; [done|done].
Qed.

Lemma match_section_at heading prev s :
  match_at (Lit heading ⋅ section_rest) prev s
  = (λ text, [(1%nat, text)]) <$> section_at heading s.
Proof.
  unfold match_at, section_at, section_rest. cbn [rmatch].
  pose proof (strip_prefix_spec heading prev s) as H1.
  destruct (drop_prefix heading s) as [s1|]; cbn [mbind option_bind];
    [|by rewrite H1].
  destruct H1 as [p1 ->].
  rewrite (star_greedy_space _ (λ s2, [(1%nat, until_heading s2)])).
  - by destruct (after_last_nl s1).
  - intros p s'. destruct s' as [|a s2]; [done|]. unfold NL at 1.
    cbn [strip_prefix]. rewrite Ascii.eqb_sym.
    destruct (Ascii.eqb a LF); [|done].
    rewrite (star_lazy_first _ (λ s3, [(1%nat, consumed s2 s3)])).
    + by rewrite <- (until_from_heading s2) at 1; rewrite consumed_app.
    + intros p2 s3. fold heading_mark.
      pose proof (strip_prefix_bool heading_mark p2 s3) as Hb.
      destruct (strip_prefix heading_mark p2 s3) as [[? ?]|];
        rewrite <- Hb; [done|].
      by destruct s3.
Qed.

Lemma search_section heading s :
  ∀ prev,
    search_from (Lit heading ⋅ section_rest) prev s
    = (λ text, [(1%nat, text)]) <$> first_section heading s.
Proof.
  induction s as [|a s IH]; intros prev; cbn [search_from first_section];
    rewrite match_section_at; destruct (section_at heading _); try done.
  apply IH.
Qed.

Lemma section_value_first heading content :
  section_value content (Lit heading ⋅ section_rest)
  = strip (default "" (first_section heading content)).
Proof.
  unfold section_value, re_search. rewrite search_section.
  by destruct (first_section heading content).
Qed.

(** *** White space at the ends *)

Lemma rev_app_acc s acc : String.rev_app s acc = String.rev s +:+ acc.
Proof.
  unfold String.rev. revert acc.
  induction s as [|a s IH]; intros acc; [done|]. cbn [String.rev_app].
  by rewrite (IH (String a acc)), (IH (String a "")), app_assoc.
Qed.

Lemma rev_cons a s : String.rev (String a s) = String.rev s +:+ String a "".
Proof. unfold String.rev at 1. cbn [String.rev_app]. apply rev_app_acc. Qed.

Lemma rev_app_distr s1 s2 :
  String.rev (s1 +:+ s2) = String.rev s2 +:+ String.rev s1.
Proof.
  induction s1 as [|a s1 IH]; [by rewrite app_empty, app_empty_r|].
  by rewrite app_cons, !rev_cons, IH, app_assoc.
Qed.

Lemma rev_involutive s : String.rev (String.rev s) = s.
Proof.
  induction s as [|a s IH]; [done|]. by rewrite rev_cons, rev_app_distr, IH.
Qed.

Lemma lstrip_split s : ∃ w, s = w +:+ lstrip s ∧ all_in CSpace w = true.
Proof.
  induction s as [|a s (w & Hs & Hw)]; [by exists ""|]. cbn [lstrip].
  destruct (is_space a) eqn:Ha; [|by exists ""].
  exists (String a w). rewrite app_cons, <- Hs. split; [done|].
  cbn [all_in in_class]. by rewrite Ha, Hw.
Qed.

Lemma lstrip_head s a rest : lstrip s = String a rest → is_space a = false.
Proof.
  induction s as [|b s IH]; [done|]. cbn [lstrip].
  destruct (is_space b) eqn:Hb; [done|]. by intros [= <- _].
Qed.

Lemma lstrip_space w s : all_in CSpace w = true → lstrip (w +:+ s) = lstrip s.
Proof.
  induction w as [|a w IH]; [done|]. rewrite app_cons. cbn [all_in in_class lstrip].
  intros [-> Hw]%andb_true_iff. by apply IH.
Qed.

Lemma rstrip_split s : ∃ w, s = rstrip s +:+ w.
Proof.
  unfold rstrip. destruct (lstrip_split (String.rev s)) as (w & Hs & _).
  exists (String.rev w).
  by rewrite <- rev_app_distr, <- Hs, rev_involutive.
Qed.

(** The stripped text has no white space at either end. *)
Lemma strip_ends s :
  (∀ a rest, strip s = String a rest → is_space a = false)
  ∧ (∀ init a, strip s = init +:+ String a "" → is_space a = false).
Proof.
  unfold strip. split.
  - intros a rest Hstrip. destruct (rstrip_split (lstrip s)) as [w Hw].
    rewrite Hstrip, app_cons in Hw. by apply (lstrip_head s a (rest +:+ w)).
  - intros init a Hstrip. unfold rstrip in Hstrip.
    apply (f_equal String.rev) in Hstrip.
    rewrite rev_involutive, rev_app_distr in Hstrip.
    by apply (lstrip_head _ a _ Hstrip).
Qed.

Lemma strip_split s : ∃ w1 w2, s = w1 +:+ strip s +:+ w2.
Proof.
  destruct (lstrip_split s) as (w1 & Hs & _).
  destruct (rstrip_split (lstrip s)) as [w2 Hw]. exists w1, w2.
  by rewrite Hs at 1; rewrite Hw at 1.
Qed.

Lemma strip_space w s : all_in CSpace w = true → strip (w +:+ s) = strip s.
Proof. intros Hw. unfold strip. by rewrite lstrip_space. Qed.

Lemma contains_app_r p x y : contains p y = true → contains p (x +:+ y) = true.
Proof.
  intros Hy. induction x as [|a x IH]; [done|]. rewrite app_cons.
  cbn [contains]. by rewrite IH, orb_true_r.
Qed.

Lemma contains_app_l p x y : contains p x = true → contains p (x +:+ y) = true.
Proof.
  induction x as [|a x IH].
  - cbn [contains]. rewrite orb_false_r. intros Hp. rewrite app_empty.
    destruct p; [by destruct y|done].
  - rewrite app_cons. cbn [contains]. intros [Hs|Hx]%orb_true_iff.
    + rewrite <- app_cons. by rewrite (starts_with_assoc _ _ _ Hs).
    + by rewrite IH, orb_true_r.
Qed.

Lemma contains_strip p s : contains p s = false → contains p (strip s) = false.
Proof.
  intros Hs. destruct (contains p (strip s)) eqn:Hstrip; [|done].
  destruct (strip_split s) as (w1 & w2 & Hsplit). rewrite Hsplit in Hs.
  by rewrite contains_app_r in Hs by (by apply contains_app_l).
Qed.

(** *** The section fields *)

Lemma parse_content_section_first filepath content key heading :
  (key, heading) ∈ section_order →
  parse_content filepath content !! key
  = Some (strip (default "" (first_section ("## " +:+ heading) content))).
Proof.
  intros Hin.
  by rewrite (parse_content_section _ _ _ heading Hin), section_value_first.
Qed.

(** X18. Every section field is trimmed: it neither starts nor ends with a
    white-space character. *)
Theorem section_trimmed filepath content key heading :
  (key, heading) ∈ section_order →
  ∃ text,
    parse_content filepath content !! key = Some text
    ∧ (∀ a rest, text = String a rest → is_space a = false)
    ∧ (∀ init a, text = init +:+ String a "" → is_space a = false).
Proof.
  intros Hin. eexists. split; [by apply parse_content_section_first|].
  apply strip_ends.
Qed.

Lemma until_heading_prefix s : ∃ rest, s = until_heading s +:+ rest.
Proof. exists (from_heading s). by rewrite until_from_heading. Qed.

Lemma until_heading_clean s : contains heading_mark (until_heading s) = false.
Proof.
  induction s as [|a s IH]; cbn [until_heading].
  - by destruct (starts_with heading_mark "").
  - destruct (starts_with heading_mark (String a s)) eqn:Hs; [done|].
    cbn [contains]. rewrite IH, orb_false_r.
    destruct (starts_with heading_mark (String a (until_heading s))) eqn:Hu; [|done].
    destruct (until_heading_prefix s) as [rest Hrest].
    rewrite Hrest, <- app_cons in Hs.
    by rewrite (starts_with_assoc _ _ _ Hu) in Hs.
Qed.

Lemma first_section_Some heading s text :
  first_section heading s = Some text →
  ∃ b1 b2, s = b1 +:+ b2 ∧ section_at heading b2 = Some text.
Proof.
  induction s as [|a s IH]; cbn [first_section].
  - destruct (section_at heading "") eqn:H; [|done]. intros [= <-]. by exists "", "".
  - destruct (section_at heading (String a s)) eqn:H.
    + intros [= <-]. by exists "", (String a s).
    + intros (b1 & b2 & -> & Hb2)%IH. by exists (String a b1), b2.
Qed.

(** X19. A section field never holds a line feed followed by a level-2
    heading: the text of a section stops before the next "## " line. *)
Theorem section_stops_at_heading filepath content key heading :
  (key, heading) ∈ section_order →
  ∃ text,
    parse_content filepath content !! key = Some text
    ∧ contains (NL +:+ "## ") text = false.
Proof.
  intros Hin. eexists. split; [by apply parse_content_section_first|].
  apply contains_strip.
  destruct (first_section _ content) as [text|] eqn:Htext; [|done].
  apply first_section_Some in Htext as (b1 & b2 & _ & Hat).
  unfold section_at in Hat.
  destruct (drop_prefix _ b2) as [s1|]; cbn [mbind option_bind] in Hat; [|done].
  destruct (after_last_nl s1) as [s2|]; cbn [mbind option_bind] in Hat; [|done].
  injection Hat as <-. apply until_heading_clean.
Qed.

Lemma section_at_here heading s text :
  section_at heading s = Some text → first_section heading s = Some text.
Proof. intros H. destruct s; cbn [first_section]; by rewrite H. Qed.

Lemma first_section_skip heading before s :
  (∀ b1 b2, before = b1 +:+ b2 → b2 ≠ "" → drop_prefix heading (b2 +:+ s) = None) →
  first_section heading (before +:+ s) = first_section heading s.
Proof.
  induction before as [|a before IH]; intros Hnone; [done|].
  rewrite app_cons. cbn [first_section]. rewrite <- app_cons.
  unfold section_at at 1. rewrite (Hnone "" (String a before)) by done.
  cbn [mbind option_bind]. apply IH.
  intros b1 b2 -> Hb2. by apply (Hnone (String a b1) b2).
Qed.

Lemma after_last_nl_none indent a rest :
  contains NL indent = false → is_space a = false →
  after_last_nl (indent +:+ String a rest) = None.
Proof.
  intros Hindent Ha. induction indent as [|b indent IH].
  - rewrite app_empty. cbn [after_last_nl]. by rewrite Ha.
  - rewrite app_cons. cbn [after_last_nl]. cbn [contains] in Hindent.
    apply orb_false_iff in Hindent as [Hb Hindent]. rewrite (IH Hindent).
    unfold NL in Hb. cbn [starts_with] in Hb. rewrite andb_true_r in Hb.
    rewrite Ascii.eqb_sym, Hb. by destruct (is_space b).
Qed.

(** The white space after a heading is read up to its last line feed. *)
Lemma after_last_nl_space ws a rest :
  all_in CSpace ws = true → contains NL ws = true → is_space a = false →
  ∃ indent,
    after_last_nl (ws +:+ String a rest) = Some (indent +:+ String a rest)
    ∧ all_in CSpace indent = true
    ∧ contains NL indent = false.
Proof.
  intros Hws Hnl Ha. induction ws as [|b ws IH]; [done|].
  cbn [all_in in_class] in Hws. apply andb_true_iff in Hws as [Hb Hws].
  rewrite app_cons. cbn [after_last_nl]. rewrite Hb.
  destruct (contains NL ws) eqn:Hrest.
  - destruct (IH Hws eq_refl) as (indent & -> & Hindent). by exists indent.
  - rewrite (after_last_nl_none ws a rest Hrest Ha).
    cbn [contains] in Hnl. rewrite Hrest, orb_false_r in Hnl.
    unfold NL in Hnl. cbn [starts_with] in Hnl. rewrite andb_true_r in Hnl.
    rewrite Ascii.eqb_sym, Hnl. by exists ws.
Qed.

Lemma until_heading_indent indent s :
  contains NL indent = false →
  until_heading (indent +:+ s) = indent +:+ until_heading s.
Proof.
  intros Hindent. induction indent as [|b indent IH]; [done|].
  cbn [contains] in Hindent. apply orb_false_iff in Hindent as [Hb Hindent].
  unfold NL in Hb. cbn [starts_with] in Hb. rewrite andb_true_r in Hb.
  rewrite !app_cons. cbn [until_heading]. unfold heading_mark, NL at 1.
  rewrite app_cons. cbn [starts_with]. rewrite Hb. cbn [andb].
  by rewrite (IH Hindent).
Qed.

Lemma starts_with_mark_tail x tail :
  x ≠ "" →
  starts_with heading_mark x = false →
  tail = "" ∨ starts_with heading_mark tail = true →
  starts_with heading_mark (x +:+ tail) = false.
Proof.
  intros Hx Hmark Htail.
  assert (tail = "" ∨ ∃ tail', tail = String LF tail') as [->|[tail' ->]].
  { destruct Htail as [->|Htail]; [by left|right].
    destruct tail as [|b tail]; [done|]. cbn in Htail.
    apply andb_true_iff in Htail as [Hb _]. apply Ascii.eqb_eq in Hb as <-. eauto. }
  - by rewrite app_empty_r.
  - unfold heading_mark, NL in *.
    destruct x as [|a [|b [|c [|d x]]]]; [done|..];
      rewrite ?app_cons, ?app_empty in *; cbn [starts_with] in *.
    + by rewrite andb_false_r.
    + by rewrite !andb_false_r.
    + by rewrite !andb_false_r.
    + done.
Qed.

Lemma until_heading_text text tail :
  contains heading_mark text = false →
  tail = "" ∨ starts_with heading_mark tail = true →
  until_heading (text +:+ tail) = text.
Proof.
  intros Htext Htail. induction text as [|a text IH].
  - rewrite app_empty. destruct Htail as [->|Htail]; [done|].
    destruct tail; cbn [until_heading]; by rewrite Htail.
  - cbn [contains] in Htext. apply orb_false_iff in Htext as [Hmark Htext].
    rewrite app_cons. cbn [until_heading]. rewrite <- app_cons.
    rewrite starts_with_mark_tail by done. by rewrite IH.
Qed.

(** The field of a section whose heading first occurs before white space
    with a line feed and then a text *)
Lemma section_after_heading filepath key heading before ws a text tail :
  let content :=
    before +:+ "## " +:+ heading +:+ ws +:+ String a text +:+ tail in
  (key, heading) ∈ section_order →
  (∀ before' rest',
     content = before' +:+ "## " +:+ heading +:+ rest' →
     (String.length before ≤ String.length before')%nat) →
  all_in CSpace ws = true →
  contains NL ws = true →
  is_space a = false →
  contains (NL +:+ "## ") (String a text) = false →
  tail = "" ∨ starts_with (NL +:+ "## ") tail = true →
  parse_content filepath content !! key = Some (strip (String a text)).
Proof.
  intros content Hin Hfirst Hws Hnl Ha Htext Htail.
  rewrite (parse_content_section_first _ _ _ heading Hin). f_equal.
  unfold content.
  replace (before +:+ "## " +:+ heading +:+ ws +:+ String a text +:+ tail)
    with (before +:+ ("## " +:+ heading) +:+ ws +:+ String a text +:+ tail)
    by (by rewrite !app_assoc).
  rewrite first_section_skip.
  - destruct (after_last_nl_space ws a (text +:+ tail) Hws Hnl Ha)
      as (indent & Hafter & Hindent & Hline).
    rewrite (section_at_here _ _ (indent +:+ String a text)).
    + by apply strip_space.
    + unfold section_at. rewrite drop_prefix_app. cbn [mbind option_bind].
      rewrite (app_cons a text tail), Hafter. cbn [mbind option_bind].
      rewrite <- app_cons, until_heading_indent by done.
      by rewrite until_heading_text.
  - intros b1 b2 -> Hb2.
    destruct (drop_prefix _ _) as [rest'|] eqn:Hdrop; [|done].
    apply drop_prefix_Some in Hdrop.
    specialize (Hfirst b1 rest'). unfold content in Hfirst.
    rewrite string_length_app in Hfirst.
    assert (String.length b2 ≠ 0)%nat by (by destruct b2).
    assert (String.length b1 + String.length b2 ≤ String.length b1)%nat; [|lia].
    apply Hfirst. rewrite !app_assoc in *. by rewrite Hdrop.
Qed.



(** ** First occurrences *)

Lemma find_first_least needle hay n before rest :
  find_first needle hay = Some n →
  hay = before +:+ needle +:+ rest →
  (n ≤ String.length before)%nat.
Proof.
  revert hay n. induction before as [|a before IH]; intros hay n Hfind ->.
  - rewrite app_empty in Hfind.
    destruct (needle +:+ rest) eqn:Happ; cbn [find_first] in Hfind;
      rewrite <- Happ, starts_with_app in Hfind; by injection Hfind as <-.
  - rewrite app_cons in Hfind. cbn [find_first] in Hfind.
    destruct (starts_with needle _); [injection Hfind as <-; cbn; lia|].
    destruct (find_first needle (before +:+ needle +:+ rest)) as [m|] eqn:Hm;
      [|done].
    injection Hfind as <-. cbn. apply le_n_S. by apply (IH _ m Hm).
Qed.

Lemma contains_prefix p q s : contains (p +:+ q) s = true → contains p s = true.
Proof.
  assert (∀ s, starts_with (p +:+ q) s = true → starts_with p s = true) as Hstarts.
  { clear s. induction p as [|a p IH]; intros s; [done|].
    rewrite app_cons. cbn [starts_with]. destruct s as [|b s]; [done|].
    intros [-> H]%andb_true_iff. by rewrite (IH s). }
  induction s as [|a s IH]; cbn [contains].
  - rewrite !orb_false_r. apply Hstarts.
  - intros [H|H]%orb_true_iff; [by rewrite (Hstarts _ H)|].
    by rewrite (IH H), orb_true_r.
Qed.

(** X22. A document that holds no "## " at all has no section: all nine
    section fields are empty and so is the body made from them. *)
Theorem body_without_headings filepath content :
  contains "## " content = false →
  (∀ key heading,
     (key, heading) ∈ section_order →
     parse_content filepath content !! key = Some "")
  ∧ generate_issue_body (parse_content filepath content) = "".
Proof.
  intros Hnone.
  assert (∀ key heading,
            (key, heading) ∈ section_order →
            parse_content filepath content !! key = Some "") as Hempty.
  { intros key heading Hin.
    rewrite (parse_content_section _ _ _ heading Hin).
    unfold section_value, re_search. rewrite search_literal_absent; [done|].
    destruct (contains ("## " +:+ heading) content) eqn:Hc; [|done].
    by rewrite (contains_prefix _ _ _ Hc) in Hnone. }
  split; [done|].
  unfold generate_issue_body. rewrite body_parts_spec.
  rewrite (proj2 (filter_nil_Forall _ _)); [done|].
  apply Forall_forall. intros [key heading] Hin.
  unfold present, section_text. cbn [fst].
  rewrite (Hempty key heading Hin). by intros [].
Qed.

Lemma body_without_headings_witness :
  contains "## " "# US-001: Core Package Setup" = false
  ∧ generate_issue_body
      (parse_content (sample_dir // "US-001-core-package-setup.md")
         "# US-001: Core Package Setup") = "".
Proof.
  split; [reflexivity|].
  apply (body_without_headings (sample_dir // "US-001-core-package-setup.md")
           "# US-001: Core Package Setup"). reflexivity.
Defined.

(** ** Witnesses on the sample installation *)


Lemma main_no_dry_run_witness :
  has_stories_dir live_world = true
  ∧ "--no-dry-run" ∈ argv live_world
  ∧ (main live_world).2 = Done tt
  ∧ files_read (main live_world).1 = [].
Proof.
  assert ("--no-dry-run" ∈ argv live_world) as Hargs.
  { apply (bool_decide_unpack _). vm_compute. reflexivity. }
  split; [reflexivity|]. split; [exact Hargs|].
  destruct (main_no_dry_run live_world eq_refl Hargs) as (Hdone & Hread & _).
  split; [exact Hdone|exact Hread].
Defined.


(** ** Witnesses on the sample story *)

Lemma header_field_value_witness :
  ("status", ("**Status**: ", CROSS +:+ " Not Started")) ∈ header_fields
  ∧ parse_content (sample_dir // "US-004-bounded-queue.md") sample_story
      !! "status" = Some "done".
Proof.
  assert (("status", ("**Status**: ", CROSS +:+ " Not Started")) ∈ header_fields)
    as Hin by apply list_elem_of_here.
  split; [exact Hin|].
  destruct (header_field_value (sample_dir // "US-004-bounded-queue.md")
              sample_story _ _ _ Hin) as (value & -> & Hfirst & _).
  f_equal.
  apply (Hfirst ("# US-004: Bounded Queue" +:+ NL +:+ NL)
           ("done" +:+ NL +:+ "## Description  " +:+ NL +:+ NL
              +:+ "  As a dev" +:+ NL +:+ "### sub" +:+ NL +:+ "text  "
              +:+ NL +:+ NL +:+ "## Notes" +:+ NL +:+ "n1" +:+ NL)).
  - vm_compute. reflexivity.
  - vm_compute. discriminate.
  - intros before' rest' Hcontent Hshorter. exfalso.
    pose proof (find_first_least "**Status**: " sample_story 25 before' rest'
                  eq_refl Hcontent) as Hleast.
    change (String.length _) with 25%nat in Hshorter at 2. lia.
Defined.

Lemma parse_content_one_line_witness :
  "sprint" ∈ ["title"; "status"; "category"; "effort"; "sprint"]
  ∧ ∃ value,
      parse_content (sample_dir // "US-004-bounded-queue.md") sample_story
        !! "sprint" = Some value
      ∧ value ≠ ""
      ∧ contains NL value = false.
Proof.
  assert ("sprint" ∈ ["title"; "status"; "category"; "effort"; "sprint"]) as Hin.
  { apply (bool_decide_unpack _). vm_compute. reflexivity. }
  split; [exact Hin|].
  exact (parse_content_one_line (sample_dir // "US-004-bounded-queue.md")
           sample_story "sprint" Hin).
Defined.

Lemma section_trimmed_witness :
  ("description", "Description") ∈ section_order
  ∧ ∃ text,
      parse_content (sample_dir // "US-004-bounded-queue.md") sample_story
        !! "description" = Some text
      ∧ (∀ a rest, text = String a rest → is_space a = false)
      ∧ (∀ init a, text = init +:+ String a "" → is_space a = false).
Proof.
  assert (("description", "Description") ∈ section_order) as Hin
    by apply list_elem_of_here.
  split; [exact Hin|].
  exact (section_trimmed (sample_dir // "US-004-bounded-queue.md") sample_story
           "description" "Description" Hin).
Defined.

Lemma section_stops_at_heading_witness :
  ("description", "Description") ∈ section_order
  ∧ ∃ text,
      parse_content (sample_dir // "US-004-bounded-queue.md") sample_story
        !! "description" = Some text
      ∧ contains (NL +:+ "## ") text = false.
Proof.
  assert (("description", "Description") ∈ section_order) as Hin
    by apply list_elem_of_here.
  split; [exact Hin|].
  exact (section_stops_at_heading (sample_dir // "US-004-bounded-queue.md")
           sample_story "description" "Description" Hin).
Defined.



(** ** The report of a story *)

Lemma printed_app t1 t2 : printed (t1 ++ t2) = printed t1 ++ printed t2.
Proof. apply omap_app. Qed.

Lemma printed_prints lines : printed (EPrint <$> lines) = lines.
Proof.
  unfold printed. induction lines as [|l lines IH]; [done|]. cbn. by rewrite IH.
Qed.

Lemma report_story_lines w story_file content :
  file_text w story_file = Some content →
  ∃ story_id title labels,
    parse_content story_file content !! "story_id" = Some story_id
    ∧ parse_content story_file content !! "title" = Some title
    ∧ get_labels story_id (default ∅ (STORY_METADATA !! story_id)) = Ok labels
    ∧ report_story story_file w
      = (ERead story_file
           :: (EPrint <$> report_lines story_id title labels
                            (generate_issue_body (parse_content story_file content))),
         Done tt).
Proof.
  intros Hfile.
  destruct (get_labels_table_ok (join "-" (take 2 (split "-" (path_stem story_file)))))
    as [labels Hlabels].
  eexists _, _, labels. split; [apply parse_content_story_id|].
  split; [apply parse_content_title|]. split; [exact Hlabels|].
  unfold report_story, parse_markdown_file, read_text, io_bind at 1 2.
  rewrite Hfile. cbn [io_ret app].
  unfold index at 1, io_bind at 1. rewrite parse_content_story_id. cbn [io_ret app].
  unfold index at 1, io_bind at 1. rewrite parse_content_title. cbn [io_ret app].
  unfold io_bind at 1. rewrite Hlabels. cbn [lift io_ret app].
  reflexivity.
Qed.

Lemma for_each_report_of w story_files story_file :
  (∀ f, f ∈ story_files → is_Some (file_text w f)) →
  story_file ∈ story_files →
  ∃ t1 t2,
    (for_each story_files report_story w).1
    = t1 ++ (report_story story_file w).1 ++ t2.
Proof.
  induction story_files as [|f story_files IH]; intros Hfiles Hin;
    [by apply elem_of_nil in Hin|].
  destruct (Hfiles f) as [content Hcontent]; [apply list_elem_of_here|].
  destruct (report_story_run w f content Hcontent) as (lines & Hrun & _).
  cbn [for_each]. unfold io_bind. rewrite Hrun.
  destruct (for_each story_files report_story w) as [t o] eqn:Hloop. cbn [fst].
  apply elem_of_cons in Hin as [->|Hin].
  - exists [], t. by rewrite Hrun.
  - destruct IH as (t1 & t2 & Ht); [|done|].
    { intros f' Hf'. apply Hfiles. by apply list_elem_of_further. }
    cbn [fst] in Ht.
    exists ((ERead f :: (EPrint <$> lines)) ++ t1), t2.
    by rewrite Ht, <- (assoc_L (++)).
Qed.

Lemma main_dry_run_loop w :
  has_stories_dir w = true →
  "--no-dry-run" ∉ argv w →
  ∃ t1 t2,
    (main w).1
    = t1 ++ (for_each (sorted (story_files w)) report_story w).1 ++ t2.
Proof.
  intros Hdir Hargs.
  destruct (for_each_reports w (sorted (story_files w)) (story_files_readable w))
    as (t & Hloop & _).
  exists [EExists (user_stories_dir w);
          EPrint rule;
          EPrint "DRY RUN MODE - No issues will be created";
          EPrint "Run with --no-dry-run to actually create issues";
          EPrint rule;
          EPrint "";
          EGlob (user_stories_dir w);
          EPrint ("Found " +:+ pretty (Z.of_nat (length (sorted (story_files w))))
                    +:+ " user story files" +:+ NL)],
    (summary w).
  unfold main, io_bind, get_script_file, path_exists, get_argv, print, io_ret.
  fold (user_stories_dir w). fold (has_stories_dir w). rewrite Hdir.
  rewrite bool_decide_false by done. cbn [negb app].
  rewrite create_issues_dry_run. unfold io_bind, glob_stories, print.
  fold (story_files w). rewrite Hloop. reflexivity.
Qed.



(** ** Parsing a generated body *)

Lemma drop_prefix_line l x rest :
  all_in CDot l = true →
  is_Some (drop_prefix l (x +:+ String LF rest)) →
  starts_with l x = true.
Proof.
  revert x. induction l as [|c l IH]; intros x Hl Hdrop; [done|].
  cbn [all_in in_class] in Hl. apply andb_true_iff in Hl as [Hc Hl].
  destruct x as [|d x].
  - rewrite app_empty in Hdrop. cbn [drop_prefix] in Hdrop.
    apply negb_true_iff in Hc. rewrite Hc in Hdrop. by destruct Hdrop.
  - rewrite app_cons in Hdrop. cbn [drop_prefix starts_with] in *.
    destruct (Ascii.eqb c d); [|by destruct Hdrop]. by apply IH.
Qed.

Lemma drop_prefix_is_Some l x : is_Some (drop_prefix l x) → starts_with l x = true.
Proof.
  revert x. induction l as [|c l IH]; intros x Hdrop; [done|].
  destruct x as [|d x]; cbn [drop_prefix starts_with] in *; [by destruct Hdrop|].
  destruct (Ascii.eqb c d); [|by destruct Hdrop]. by apply IH.
Qed.

Lemma section_at_None heading x : starts_with heading x = false → section_at heading x = None.
Proof.
  intros Hx. unfold section_at.
  destruct (drop_prefix heading x) as [s1|] eqn:Hdrop; [|done].
  by rewrite (drop_prefix_is_Some heading x) in Hx by (by rewrite Hdrop).
Qed.

(** A heading is not found in a text that does not hold it. *)
Lemma first_section_absent heading x :
  contains heading x = false → first_section heading x = None.
Proof.
  induction x as [|a x IH]; cbn [contains first_section];
    intros [Hx Hrest]%orb_false_iff; rewrite (section_at_None _ _ Hx); [done|].
  by apply IH.
Qed.

(** The search for a heading skips a line that does not hold it. *)
Lemma first_section_skip_line heading x rest :
  all_in CDot heading = true →
  heading ≠ "" →
  contains heading x = false →
  first_section heading (x +:+ String LF rest) = first_section heading rest.
Proof.
  intros Hline Hne. induction x as [|a x IH]; cbn [contains];
    intros [Hx Hrest]%orb_false_iff.
  - rewrite app_empty. cbn [first_section].
    rewrite section_at_None; [done|].
    destruct heading as [|c heading]; [done|]. cbn [all_in in_class] in Hline.
    apply andb_true_iff in Hline as [Hc _]. apply negb_true_iff in Hc.
    cbn [starts_with]. by rewrite Hc.
  - rewrite app_cons. cbn [first_section]. rewrite <- app_cons.
    unfold section_at at 1.
    destruct (drop_prefix heading (String a x +:+ String LF rest)) as [s1|] eqn:Hdrop.
    + by rewrite (drop_prefix_line heading (String a x) rest Hline) in Hx
        by (by rewrite Hdrop).
    + cbn [mbind option_bind]. by apply IH.
Qed.

Lemma contains_mark_line text :
  contains heading_mark text = false →
  contains heading_mark (text +:+ NL) = false.
Proof.
  induction text as [|a text IH]; [done|]. cbn [contains].
  intros [Ha Htext]%orb_false_iff. rewrite app_cons. cbn [contains].
  rewrite (IH Htext), orb_false_r. rewrite <- app_cons.
  unfold heading_mark, NL in *.
  destruct text as [|b [|c [|d text]]];
    rewrite ?app_cons, ?app_empty in *; cbn [starts_with] in *;
    rewrite ?andb_false_r; done.
Qed.

Lemma strip_line a text :
  is_space a = false → strip (String a text +:+ NL) = strip (String a text).
Proof.
  intros Ha. unfold strip. rewrite app_cons. cbn [lstrip]. rewrite Ha.
  rewrite <- app_cons. unfold rstrip. f_equal.
  rewrite rev_app_distr. by apply lstrip_space.
Qed.

(** The headings of the sections: none holds a line feed, and none occurs
    in the heading line of another. *)
Lemma section_headings_apart e e' :
  e ∈ section_order → e' ∈ section_order →
  all_in CDot ("## " +:+ e.2) = true
  ∧ (e ≠ e' → contains ("## " +:+ e.2) ("## " +:+ e'.2) = false).
Proof.
  intros He He'.
  assert (Forall (λ e, Forall (λ e',
            all_in CDot ("## " +:+ e.2) = true
            ∧ (e ≠ e' → contains ("## " +:+ e.2) ("## " +:+ e'.2) = false))
            section_order) section_order) as Hall.
  { repeat constructor; by vm_compute. }
  rewrite Forall_forall in Hall. specialize (Hall e He).
  rewrite Forall_forall in Hall. by apply Hall.
Qed.

Section round_trip.
Variable sections : gmap string string.
Variable target : string * string.
Hypothesis Htarget : target ∈ section_order.
Hypothesis Htrimmed :
  ∀ e, e ∈ section_order →
       strip (section_text sections e.1) = section_text sections e.1.
Hypothesis Hmark :
  ∀ e, e ∈ section_order →
       contains heading_mark (section_text sections e.1) = false.
Hypothesis Hheading :
  ∀ e, e ∈ section_order →
       contains ("## " +:+ target.2) (section_text sections e.1) = false.

Lemma block_skip e rest :
  e ∈ section_order → e ≠ target →
  first_section ("## " +:+ target.2)
    (block sections e +:+ NL +:+ NL +:+ rest)
  = first_section ("## " +:+ target.2) rest.
Proof.
  intros He Hne.
  destruct (section_headings_apart target e Htarget He) as [Hline Hapart].
  replace (block sections e +:+ NL +:+ NL +:+ rest)
    with (("## " +:+ e.2)
            +:+ String LF ("" +:+ String LF (section_text sections e.1
                   +:+ String LF ("" +:+ String LF rest))))
    by (unfold block, NL; by repeat rewrite ?app_assoc, ?app_cons, ?app_empty).
  rewrite first_section_skip_line; [|done|done|by apply Hapart].
  rewrite (first_section_skip_line _ "") by done.
  rewrite first_section_skip_line; [|done|done|by apply Hheading].
  by rewrite (first_section_skip_line _ "") by done.
Qed.

Lemma block_skip_last e :
  e ∈ section_order → e ≠ target →
  first_section ("## " +:+ target.2) (block sections e) = None.
Proof.
  intros He Hne.
  destruct (section_headings_apart target e Htarget He) as [Hline Hapart].
  replace (block sections e)
    with (("## " +:+ e.2)
            +:+ String LF ("" +:+ String LF (section_text sections e.1)))
    by (unfold block, NL; by repeat rewrite ?app_assoc, ?app_cons, ?app_empty).
  rewrite first_section_skip_line; [|done|done|by apply Hapart].
  rewrite (first_section_skip_line _ "") by done.
  apply first_section_absent. by apply Hheading.
Qed.

Lemma block_found tail :
  present sections target →
  tail = "" ∨ starts_with (NL +:+ heading_mark) tail = true →
  strip (default ""
           (first_section ("## " +:+ target.2) (block sections target +:+ tail)))
  = section_text sections target.1.
Proof.
  intros Hpresent Htail. unfold present in Hpresent.
  pose proof (Htrimmed target Htarget) as Hstrip.
  pose proof (Hmark target Htarget) as Hclean.
  destruct (section_text sections target.1) as [|a text] eqn:Htext; [done|].
  assert (is_space a = false) as Ha.
  { apply (proj1 (strip_ends (String a text)) a text). by rewrite Hstrip. }
  assert (section_at ("## " +:+ target.2) (block sections target +:+ tail)
          = Some (until_heading (String a text +:+ tail))) as Hat.
  { unfold block. rewrite Htext, !app_assoc, <- (app_assoc "## " target.2).
    unfold section_at. rewrite drop_prefix_app. cbn [mbind option_bind].
    unfold NL at 1 2. rewrite !app_cons, !app_empty. cbn [after_last_nl].
    change (is_space LF) with true. cbn [after_last_nl]. rewrite Ha.
    by rewrite Ascii.eqb_refl. }
  rewrite (section_at_here _ _ _ Hat). cbn [default from_option id].
  destruct Htail as [->|Htail].
  - by rewrite (until_heading_text (String a text) "") by auto.
  - destruct tail as [|b tail]; [done|]. unfold NL at 1 in Htail.
    rewrite app_cons, app_empty in Htail. cbn [starts_with] in Htail.
    apply andb_true_iff in Htail as [<-%Ascii.eqb_eq Htail].
    replace (String a text +:+ String LF tail)
      with ((String a text +:+ NL) +:+ tail) by (by rewrite app_assoc).
    rewrite until_heading_text; [by rewrite strip_line| |by right].
    by apply contains_mark_line.
Qed.

Lemma blocks_tail_starts e es :
  starts_with (NL +:+ heading_mark)
    (NL +:+ NL +:+ join (NL +:+ NL) (block sections <$> e :: es)) = true.
Proof.
  pose proof (join_blocks_starts sections (NL +:+ NL) e es) as Hs.
  unfold heading_mark, NL. rewrite !app_cons, !app_empty. cbn [starts_with].
  by rewrite !Ascii.eqb_refl.
Qed.

Lemma blocks_round_trip (order : list (string * string)) :
  (∀ e, e ∈ order → e ∈ section_order) →
  NoDup order →
  strip (default ""
           (first_section ("## " +:+ target.2)
              (join (NL +:+ NL)
                 (block sections <$> filter (present sections) order))))
  = if decide (target ∈ order) then section_text sections target.1 else "".
Proof.
  induction order as [|e order IH]; intros Hsub Hnodup; [done|].
  apply NoDup_cons in Hnodup as [Hfresh Hnodup].
  specialize (IH (λ e' He', Hsub e' (list_elem_of_further _ _ _ He')) Hnodup).
  pose proof (Hsub e (list_elem_of_here _ _)) as He.
  rewrite filter_cons. destruct (decide (present sections e)) as [Hpresent|Habsent].
  - rewrite fmap_cons, join_cons.
    destruct (decide (e = target)) as [->|Hne].
    + rewrite decide_True by apply list_elem_of_here.
      destruct (filter (present sections) order) as [|e' es] eqn:Hrest.
      * rewrite <- (app_empty_r (block sections target)). by apply block_found; auto.
      * apply block_found; [done|]. right. apply blocks_tail_starts.
    + assert (target ∈ e :: order ↔ target ∈ order) as Hiff.
      { rewrite elem_of_cons. split; [intros [Heq|Hin]; [by destruct Hne|done]|by right]. }
      rewrite (decide_ext _ _ _ _ Hiff), <- IH.
      destruct (block sections <$> filter (present sections) order) as [|b bs].
      * by rewrite block_skip_last.
      * by rewrite (app_assoc NL NL), block_skip.
  - destruct (decide (e = target)) as [->|Hne].
    + rewrite decide_True by apply list_elem_of_here.
      rewrite IH, decide_False by done.
      unfold present in Habsent. by destruct (decide (section_text sections target.1 = "")).
    + assert (target ∈ e :: order ↔ target ∈ order) as Hiff.
      { rewrite elem_of_cons. split; [intros [Heq|Hin]; [by destruct Hne|done]|by right]. }
      by rewrite (decide_ext _ _ _ _ Hiff).
Qed.

End round_trip.


